(** * lib-common: owner references, ClusterRole reconciliation and
    deprecated-field validation

    A shallow embedding of three packages of
    [modules/common]: [webhook] (deprecated.go), [clusterrole]
    (clusterrole.go) and [object] (owner references and owner readiness).

    Go strings are [string]; [*string] is [option string]; Go maps with
    string keys are [gmap string _]; slices are lists; a Go [error] is
    [option error] with [None] for [nil]. Calls to the API client are
    recorded in a trace, so that "no call is made" is a statement about the
    value a function returns. *)

From Stdlib Require Import ZArith Ascii String.
From stdpp Require Import base option list strings gmap.

(** ** The Kubernetes libraries the packages call

    Models of the parts of k8s.io/apimachinery and controller-runtime that
    the three packages use: API errors and their classification, owner
    references, weakly-typed documents and their accessors, and the client. *)

Module k8s.

(** *** Errors *)

(** [metav1.StatusReason]: the two reasons the packages test for, any other
    reason of the table [knownReasons], and a reason outside that table
    (among them [StatusReasonUnknown], the empty string). *)
Inductive StatusReason :=
| StatusReasonNotFound
| StatusReasonConflict
| StatusReasonListed (reason : string)
| StatusReasonUnlisted (reason : string).

(** A Go [error] value (non-nil): an API status error, a plain error, or an
    error wrapped by [fmt.Errorf] with the verb [%w]. *)
Inductive error :=
| StatusError (reason : StatusReason) (code : Z) (message : string)
| errorString (message : string)
| wrapError (prefix : string) (err : error).

(** [err.Error()]. *)
Fixpoint Error_ (e : error) : string :=
  match e with
  | StatusError _ _ m => m
  | errorString m => m
  | wrapError p e' => p +:+ Error_ e'
  end.

(** [reasonAndCodeForError]: the status found along the chain of wrapped
    errors, or [(StatusReasonUnknown, 0)]. *)
Fixpoint reasonAndCodeForError (e : error) : StatusReason * Z :=
  match e with
  | StatusError r c _ => (r, c)
  | errorString _ => (StatusReasonUnlisted "", 0%Z)
  | wrapError _ e' => reasonAndCodeForError e'
  end.

Definition listed (r : StatusReason) : bool :=
  match r with StatusReasonUnlisted _ => false | _ => true end.

(** [k8s_errors.IsNotFound]. *)
Definition IsNotFound (e : error) : bool :=
  let '(reason, code) := reasonAndCodeForError e in
  match reason with
  | StatusReasonNotFound => true
  | _ => negb (listed reason) && bool_decide (code = 404%Z)
  end.

(** [k8s_errors.IsConflict]. *)
Definition IsConflict (e : error) : bool :=
  let '(reason, code) := reasonAndCodeForError e in
  match reason with
  | StatusReasonConflict => true
  | _ => negb (listed reason) && bool_decide (code = 409%Z)
  end.

(** The same predicates on a possibly nil error. *)
Definition IsNotFound_opt (e : option error) : bool :=
  match e with Some e => IsNotFound e | None => false end.

Definition IsConflict_opt (e : option error) : bool :=
  match e with Some e => IsConflict e | None => false end.

(** *** Group, version, kind *)

Record GroupVersion := mkGV { Group : string; Version : string }.

Record GroupVersionKind := mkGVK {
  gvk_Group : string; gvk_Version : string; gvk_Kind : string
}.

Definition slash : ascii := "/"%char.

(** [strings.Count(s, "/")]. *)
Fixpoint count_slash (s : string) : nat :=
  match s with
  | EmptyString => 0
  | String c s' => (if decide (c = slash) then 1 else 0) + count_slash s'
  end.

(** [gv[:i]] and [gv[i+1:]] for [i := strings.Index(gv, "/")]. *)
Fixpoint split_slash (s : string) : string * string :=
  match s with
  | EmptyString => ("", "")
  | String c s' =>
      if decide (c = slash) then ("", s')
      else let '(a, b) := split_slash s' in (String c a, b)
  end.

(** [schema.ParseGroupVersion]. *)
Definition ParseGroupVersion (gv : string) : GroupVersion + error :=
  if bool_decide (gv = "") || bool_decide (gv = "/") then inl (mkGV "" "")
  else match count_slash gv with
       | 0 => inl (mkGV "" gv)
       | 1 => let '(g, v) := split_slash gv in inl (mkGV g v)
       | _ => inr (errorString ("unexpected GroupVersion string: " +:+ gv))
       end.

(** [GroupVersion.String]. *)
Definition GroupVersion_String (gv : GroupVersion) : string :=
  if bool_decide (Group gv <> "") then Group gv +:+ "/" +:+ Version gv
  else Version gv.

(** *** Object metadata *)

(** [metav1.OwnerReference]; the two flags are [*bool]. *)
Record OwnerReference := mkOwnerReference {
  APIVersion : string;
  Kind : string;
  Name : string;
  UID : string;
  Controller : option bool;
  BlockOwnerDeletion : option bool
}.

Global Instance OwnerReference_eq_dec : EqDecision OwnerReference.
Proof. solve_decision. Defined.

(** The part of [metav1.ObjectMeta] the packages read or write. *)
Record ObjectMeta := mkObjectMeta {
  m_Name : string;
  m_Namespace : string;
  m_UID : string;
  Labels : gmap string string;
  Annotations : gmap string string;
  OwnerReferences : list OwnerReference
}.

Global Instance ObjectMeta_eq_dec : EqDecision ObjectMeta.
Proof. solve_decision. Defined.

Definition set_OwnerReferences (m : ObjectMeta) (l : list OwnerReference)
    : ObjectMeta :=
  mkObjectMeta (m_Name m) (m_Namespace m) (m_UID m) (Labels m)
    (Annotations m) l.

Definition set_Labels (m : ObjectMeta) (l : gmap string string) : ObjectMeta :=
  mkObjectMeta (m_Name m) (m_Namespace m) (m_UID m) l (Annotations m)
    (OwnerReferences m).

Definition set_Annotations (m : ObjectMeta) (a : gmap string string)
    : ObjectMeta :=
  mkObjectMeta (m_Name m) (m_Namespace m) (m_UID m) (Labels m) a
    (OwnerReferences m).

(** [types.NamespacedName]. *)
Record NamespacedName := mkNamespacedName {
  nn_Namespace : string; nn_Name : string
}.

Global Instance NamespacedName_eq_dec : EqDecision NamespacedName.
Proof. solve_decision. Defined.

(** A [runtime.Scheme], as far as [apiutil.GVKForObject] uses it: the kind
    registered for a Go type, if there is exactly one. *)
Definition Scheme := string -> option GroupVersionKind.

(** *** Weakly-typed documents *)

(** The values of an [unstructured.Unstructured] document
    ([map[string]interface{}] as decoded from JSON): nil, booleans, [int64],
    [float64] (kept as its bits), strings, slices and maps. *)
#[local] Unset Elimination Schemes.
Inductive JSON :=
| JNull
| JBool (b : bool)
| JInt64 (i : Z)
| JFloat64 (bits : Z)
| JString (s : string)
| JSlice (l : list JSON)
| JMap (m : gmap string JSON).
#[local] Set Elimination Schemes.

(** The triple [(value, found, err)] the accessors return. *)
Definition Nested (A : Type) : Type := A * bool * option error.

Definition accessorError : error := errorString "accessor error".

(** [unstructured.NestedFieldNoCopy], on the current value [val]. *)
Fixpoint NestedFieldNoCopy_from (val : JSON) (fields : list string)
    : Nested JSON :=
  match fields with
  | [] => (val, true, None)
  | field :: rest =>
      match val with
      | JNull => (JNull, false, None)
      | JMap m =>
          match m !! field with
          | Some v => NestedFieldNoCopy_from v rest
          | None => (JNull, false, None)
          end
      | _ => (JNull, false, Some accessorError)
      end
  end.

Definition NestedFieldNoCopy (obj : gmap string JSON) (fields : list string)
    : Nested JSON :=
  NestedFieldNoCopy_from (JMap obj) fields.

(** [unstructured.NestedString]. *)
Definition NestedString (obj : gmap string JSON) (fields : list string)
    : Nested string :=
  let '(val, found, err) := NestedFieldNoCopy obj fields in
  if negb found || bool_decide (err <> None) then ("", found, err)
  else match val with
       | JString s => (s, true, None)
       | _ => ("", false, Some accessorError)
       end.

(** [unstructured.NestedInt64]. *)
Definition NestedInt64 (obj : gmap string JSON) (fields : list string)
    : Nested Z :=
  let '(val, found, err) := NestedFieldNoCopy obj fields in
  if negb found || bool_decide (err <> None) then (0%Z, found, err)
  else match val with
       | JInt64 i => (i, true, None)
       | _ => (0%Z, false, Some accessorError)
       end.

(** [unstructured.NestedSlice]; the deep copy it returns is the value. *)
Definition NestedSlice (obj : gmap string JSON) (fields : list string)
    : Nested (list JSON) :=
  let '(val, found, err) := NestedFieldNoCopy obj fields in
  if negb found || bool_decide (err <> None) then ([], found, err)
  else match val with
       | JSlice l => (l, true, None)
       | _ => ([], false, Some accessorError)
       end.

(** *** Owner references (controller-runtime, controllerutil) *)

(** An object as the helpers see it: its Go type and its metadata. *)
Record Object := mkObject {
  GoType : string;
  Meta : ObjectMeta
}.

Global Instance Object_eq_dec : EqDecision Object.
Proof. solve_decision. Defined.

Definition with_OwnerReferences (o : Object) (l : list OwnerReference)
    : Object :=
  mkObject (GoType o) (set_OwnerReferences (Meta o) l).

(** [apiutil.GVKForObject]. *)
Definition GVKForObject (o : Object) (scheme : Scheme)
    : GroupVersionKind + error :=
  match scheme (GoType o) with
  | Some gvk => inl gvk
  | None => inr (errorString "no kind is registered for the type")
  end.

(** [validateOwner]: an owner in a namespace owns only objects of that
    namespace. *)
Definition validateOwner (owner object : ObjectMeta) : option error :=
  let ownerNs := m_Namespace owner in
  if bool_decide (ownerNs <> "") then
    let objNs := m_Namespace object in
    if bool_decide (objNs = "") then
      Some (errorString
        "cluster-scoped resource must not have a namespace-scoped owner")
    else if bool_decide (ownerNs <> objNs) then
      Some (errorString "cross-namespace owner references are disallowed")
    else None
  else None.

(** [referSameObject]: same group, kind and name. *)
Definition referSameObject (a b : OwnerReference) : bool :=
  match ParseGroupVersion (APIVersion a) with
  | inr _ => false
  | inl aGV =>
      match ParseGroupVersion (APIVersion b) with
      | inr _ => false
      | inl bGV =>
          bool_decide (Group aGV = Group bGV) &&
          bool_decide (Kind a = Kind b) &&
          bool_decide (Name a = Name b)
      end
  end.

(** [indexOwnerRef]: the first index that refers to the same object, [None]
    for -1. *)
Fixpoint indexOwnerRef (ownerReferences : list OwnerReference)
    (ref : OwnerReference) : option nat :=
  match ownerReferences with
  | [] => None
  | r :: rest =>
      if referSameObject r ref then Some 0
      else S <$> indexOwnerRef rest ref
  end.

(** [upsertOwnerRef], on the list of owner references. *)
Definition upsertOwnerRef (ref : OwnerReference)
    (owners : list OwnerReference) : list OwnerReference :=
  match indexOwnerRef owners ref with
  | None => owners ++ [ref]
  | Some idx => <[idx := ref]> owners
  end.

(** The reference [SetOwnerReference] builds for an owner. *)
Definition ownerRefOf (gvk : GroupVersionKind) (owner : ObjectMeta)
    : OwnerReference :=
  mkOwnerReference
    (GroupVersion_String (mkGV (gvk_Group gvk) (gvk_Version gvk)))
    (gvk_Kind gvk) (m_Name owner) (m_UID owner) None None.

(** [controllerutil.SetOwnerReference]: the object with the owner's
    reference upserted, or an error. *)
Definition SetOwnerReference (owner object : Object) (scheme : Scheme)
    : Object + error :=
  match validateOwner (Meta owner) (Meta object) with
  | Some err => inr err
  | None =>
      match GVKForObject owner scheme with
      | inr err => inr err
      | inl gvk =>
          let ref := ownerRefOf gvk (Meta owner) in
          inl (with_OwnerReferences object
                 (upsertOwnerRef ref (OwnerReferences (Meta object))))
      end
  end.

(** [metav1.GetControllerOf]: the first reference with [controller] set. *)
Definition isController (r : OwnerReference) : bool :=
  match Controller r with Some true => true | _ => false end.

Definition GetControllerOf (refs : list OwnerReference)
    : option OwnerReference :=
  find isController refs.

(** [controllerutil.SetControllerReference], on the list of owner
    references of the controlled object. *)
Definition SetControllerReference (owner : Object) (controlled : ObjectMeta)
    (scheme : Scheme) : list OwnerReference + error :=
  match validateOwner (Meta owner) controlled with
  | Some err => inr err
  | None =>
      match GVKForObject owner scheme with
      | inr err => inr err
      | inl gvk =>
          let ref :=
            mkOwnerReference
              (GroupVersion_String (mkGV (gvk_Group gvk) (gvk_Version gvk)))
              (gvk_Kind gvk) (m_Name (Meta owner)) (m_UID (Meta owner))
              (Some true) (Some true) in
          match GetControllerOf (OwnerReferences controlled) with
          | Some existing =>
              if negb (referSameObject existing ref) then
                inr (errorString "object is already owned by another controller")
              else inl (upsertOwnerRef ref (OwnerReferences controlled))
          | None => inl (upsertOwnerRef ref (OwnerReferences controlled))
          end
      end
  end.

(** *** rbac/v1 *)

Record PolicyRule := mkPolicyRule {
  Verbs : list string;
  APIGroups : list string;
  Resources : list string;
  ResourceNames : list string;
  NonResourceURLs : list string
}.

Global Instance PolicyRule_eq_dec : EqDecision PolicyRule.
Proof. solve_decision. Defined.

(** [rbacv1.ClusterRole]. *)
Record ClusterRole := mkClusterRole {
  ObjectMeta_ : ObjectMeta;
  Rules : list PolicyRule
}.

Global Instance ClusterRole_eq_dec : EqDecision ClusterRole.
Proof. solve_decision. Defined.

Definition ObjectKeyFromObject (m : ObjectMeta) : NamespacedName :=
  mkNamespacedName (m_Namespace m) (m_Name m).

(** *** The client *)

(** What the API server answers to each call. A successful create or patch
    of a ClusterRole answers with the stored object. *)
Record Client := mkClient {
  GetClusterRole : NamespacedName -> ClusterRole + error;
  CreateClusterRole : ClusterRole -> ClusterRole + error;
  PatchClusterRole : ClusterRole -> ClusterRole -> ClusterRole + error;
  DeleteClusterRole : ClusterRole -> option error;
  GetUnstructured :
    GroupVersionKind -> NamespacedName -> gmap string JSON + error;
  PatchObject : Object -> Object -> option error
}.

(** The calls a function makes on the client, in order. *)
Inductive Call :=
| CallGetClusterRole (key : NamespacedName)
| CallCreateClusterRole (obj : ClusterRole)
| CallPatchClusterRole (obj before : ClusterRole)
| CallDeleteClusterRole (obj : ClusterRole)
| CallGetUnstructured (gvk : GroupVersionKind) (key : NamespacedName)
| CallPatchObject (obj before : Object).

(** A result together with the calls made to obtain it. *)
Definition Traced (A : Type) : Type := A * list Call.

Global Instance Traced_ret : MRet Traced := fun _ a => (a, []).
Global Instance Traced_bind : MBind Traced := fun _ _ k m =>
  let '(a, t) := m in let '(b, t') := k a in (b, t ++ t').

Definition call {A} (c : Call) (answer : A) : Traced A := (answer, [c]).

Definition result {A} (m : Traced A) : A := fst m.
Definition calls {A} (m : Traced A) : list Call := snd m.

(** *** controllerutil.CreateOrPatch, for a ClusterRole *)

Inductive OperationResult :=
| OperationResultNone
| OperationResultCreated
| OperationResultUpdated.

(** A [MutateFn]: Go closures mutate the object they captured; here the
    closure maps the object to the mutated object and its error. *)
Definition MutateFn := ClusterRole -> ClusterRole * option error.

(** [mutate]: runs the closure and refuses a change of the object's key. *)
Definition mutate (f : MutateFn) (key : NamespacedName) (obj : ClusterRole)
    : ClusterRole * option error :=
  let '(obj', err) := f obj in
  match err with
  | Some e => (obj', Some e)
  | None =>
      if bool_decide (key <> ObjectKeyFromObject (ObjectMeta_ obj')) then
        (obj', Some (errorString
          "MutateFn cannot mutate object name and/or object namespace"))
      else (obj', None)
  end.

(** [controllerutil.CreateOrPatch]: get the object; when it is not found,
    mutate and create; otherwise mutate and, if that changed the object,
    patch. A ClusterRole has no status, so no status patch follows.
    Returns the operation, the error and the object as it is left. *)
Definition CreateOrPatch (c : Client) (obj : ClusterRole) (f : MutateFn)
    : Traced (OperationResult * option error * ClusterRole) :=
  let key := ObjectKeyFromObject (ObjectMeta_ obj) in
  got ← call (CallGetClusterRole key) (GetClusterRole c key);
  match got with
  | inr err =>
      if negb (IsNotFound err) then mret (OperationResultNone, Some err, obj)
      else
        let '(obj', ferr) := mutate f key obj in
        match ferr with
        | Some e => mret (OperationResultNone, Some e, obj')
        | None =>
            created ← call (CallCreateClusterRole obj')
                        (CreateClusterRole c obj');
            match created with
            | inr err => mret (OperationResultNone, Some err, obj')
            | inl stored => mret (OperationResultCreated, None, stored)
            end
        end
  | inl live =>
      let before := live in
      let '(obj', ferr) := mutate f key live in
      match ferr with
      | Some e => mret (OperationResultNone, Some e, obj')
      | None =>
          if bool_decide (before <> obj') then
            patched ← call (CallPatchClusterRole obj' before)
                        (PatchClusterRole c obj' before);
            match patched with
            | inr err => mret (OperationResultNone, Some err, obj')
            | inl stored => mret (OperationResultUpdated, None, stored)
            end
          else mret (OperationResultNone, None, obj')
      end
  end.

End k8s.

(** ** Packages util and helper, as far as the two packages below use them *)

Module util.

Import k8s.

(** Modelled from the spec: [util.MergeStringMaps], whose file is not part
    of the sources. The maps are merged and on a key of both maps the
    value of the second, the desired one, wins. *)
Definition MergeStringMaps (baseMap extraMap : gmap string string)
    : gmap string string :=
  extraMap ∪ baseMap.

(** Modelled from the spec: [util.WrapErrorForObject], whose file is not
    part of the sources. The error is wrapped with the message and the
    object's namespace and name. *)
Definition WrapErrorForObject (msg : string) (object : ObjectMeta)
    (err : error) : error :=
  wrapError (msg +:+ " " +:+ m_Namespace object +:+ "/" +:+ m_Name object
             +:+ ": ") err.

End util.

Module helper.

Import k8s.

(** [helper.Helper]: the client, the scheme and the object being
    reconciled. Logging is not modelled. *)
Record Helper := mkHelper {
  GetClient : Client;
  GetScheme : Scheme;
  GetBeforeObject : Object
}.

End helper.

(** ** Package clusterrole *)

Module clusterrole.

Import k8s helper.

(** The [ClusterRole] of the package: the desired object and the requeue
    delay, a [time.Duration] in nanoseconds. *)
Record ClusterRole := mkClusterRole {
  clusterrole : k8s.ClusterRole;
  timeout : Z
}.

(** [ctrl.Result]. *)
Record Result := mkResult {
  Requeue : bool;
  RequeueAfter : Z
}.

Definition NewClusterRole (clusterrole : k8s.ClusterRole) (timeout : Z)
    : ClusterRole :=
  mkClusterRole clusterrole timeout.

(** The closure [CreateOrPatch] hands to [controllerutil.CreateOrPatch],
    as a function of the live object it mutates. Each assignment reads the
    object as the assignments before it left it. *)
Definition mutateFn (r : ClusterRole) (h : Helper) : MutateFn :=
  fun live =>
    let m := ObjectMeta_ live in
    let m := set_Labels m
      (util.MergeStringMaps (Labels m) (Labels (ObjectMeta_ (clusterrole r)))) in
    let m := set_Annotations m
      (util.MergeStringMaps (Labels m)
         (Annotations (ObjectMeta_ (clusterrole r)))) in
    let rules := Rules (clusterrole r) in
    match SetControllerReference (GetBeforeObject h) m (GetScheme h) with
    | inr err => (k8s.mkClusterRole m rules, Some err)
    | inl refs => (k8s.mkClusterRole (set_OwnerReferences m refs) rules, None)
    end.

(** The object [CreateOrPatch] starts from: only the name and the
    namespace of the desired ClusterRole. *)
Definition newObject (r : ClusterRole) : k8s.ClusterRole :=
  k8s.mkClusterRole
    (mkObjectMeta (m_Name (ObjectMeta_ (clusterrole r)))
       (m_Namespace (ObjectMeta_ (clusterrole r))) "" ∅ ∅ [])
    [].

(** [(r *ClusterRole) CreateOrPatch]. *)
Definition CreateOrPatch (r : ClusterRole) (h : Helper)
    : Traced (Result * option error) :=
  '(op, err, clusterrole') ←
    k8s.CreateOrPatch (GetClient h) (newObject r) (mutateFn r h);
  match err with
  | Some err =>
      if IsNotFound err then mret (mkResult false (timeout r), None)
      else
        mret (mkResult false 0,
              Some (util.WrapErrorForObject
                      ("Error creating clusterrole " +:+
                       m_Name (ObjectMeta_ clusterrole'))
                      (ObjectMeta_ clusterrole') err))
  | None => mret (mkResult false 0, None)
  end.

(** [(r *ClusterRole) Delete]. *)
Definition Delete (r : ClusterRole) (h : Helper) : Traced (option error) :=
  err ← call (CallDeleteClusterRole (clusterrole r))
          (DeleteClusterRole (GetClient h) (clusterrole r));
  match err with
  | Some e =>
      if negb (IsNotFound e) then
        mret (Some (wrapError
          ("Error deleting clusterrole " +:+
           m_Name (ObjectMeta_ (clusterrole r)) +:+ ": ") e))
      else mret None
  | None => mret None
  end.

End clusterrole.

(** ** Package object *)

Module object.

Import k8s helper.

(** [slices.IndexFunc], scanning from index [i]: the first index whose
    element satisfies [f], or -1. *)
Fixpoint IndexFunc_from {A} (i : Z) (s : list A) (f : A -> bool) : Z :=
  match s with
  | [] => (-1)%Z
  | x :: rest => if f x then i else IndexFunc_from (i + 1)%Z rest f
  end.

Definition IndexFunc {A} (s : list A) (f : A -> bool) : Z :=
  IndexFunc_from 0%Z s f.

(** [CheckOwnerRefExist]. *)
Definition CheckOwnerRefExist (uid : string)
    (ownerRefs : list OwnerReference) : bool :=
  let f := fun o : OwnerReference => bool_decide (UID o = uid) in
  let idx := IndexFunc ownerRefs f in
  if bool_decide (0 <= idx)%Z then true else false.

(** *** The merge patch of an object against its snapshot *)

(** A [*bool] field with [omitempty]. *)
Definition optBoolField (name : string) (b : option bool)
    : gmap string JSON :=
  match b with Some v => {[ name := JBool v ]} | None => ∅ end.

(** The JSON form of a [metav1.OwnerReference]. *)
Definition ownerRefJSON (r : OwnerReference) : JSON :=
  JMap ({[ "apiVersion" := JString (APIVersion r) ]} ∪
        {[ "kind" := JString (Kind r) ]} ∪
        {[ "name" := JString (Name r) ]} ∪
        {[ "uid" := JString (UID r) ]} ∪
        optBoolField "controller" (Controller r) ∪
        optBoolField "blockOwnerDeletion" (BlockOwnerDeletion r)).

(** The difference of a string field with [omitempty]. *)
Definition diffString (name before after : string) : gmap string JSON :=
  if bool_decide (before = after) then ∅
  else {[ name := if bool_decide (after = "") then JNull else JString after ]}.

(** The difference of a map of strings: changed and new keys with their
    values, removed keys with null. *)
Definition diffStringMap (name : string) (before after : gmap string string)
    : gmap string JSON :=
  if bool_decide (before = after) then ∅
  else if bool_decide (after = ∅) then {[ name := JNull ]}
  else {[ name := JMap
      ((JString <$> filter (fun kv => before !! kv.1 ≠ Some kv.2) after) ∪
       ((fun _ => JNull) <$> filter (fun kv => after !! kv.1 = None) before)) ]}.

(** The difference of the owner references: a list is replaced whole. *)
Definition diffOwnerReferences (before after : list OwnerReference)
    : gmap string JSON :=
  if bool_decide (before = after) then ∅
  else {[ "ownerReferences" :=
            match after with
            | [] => JNull
            | _ => JSlice (ownerRefJSON <$> after)
            end ]}.

Definition diffMeta (before after : ObjectMeta) : gmap string JSON :=
  diffOwnerReferences (OwnerReferences before) (OwnerReferences after) ∪
  diffString "name" (m_Name before) (m_Name after) ∪
  diffString "namespace" (m_Namespace before) (m_Namespace after) ∪
  diffString "uid" (m_UID before) (m_UID after) ∪
  diffStringMap "labels" (Labels before) (Labels after) ∪
  diffStringMap "annotations" (Annotations before) (Annotations after).

(** [client.MergeFrom(before).Data(object)], unmarshalled: the JSON merge
    patch that turns the snapshot into the object. Only metadata is
    modelled, so the patch is empty or has the one key [metadata]. *)
Definition mergePatchData (before object : Object) : gmap string JSON :=
  let d := diffMeta (Meta before) (Meta object) in
  if bool_decide (d = ∅) then ∅ else {[ "metadata" := JMap d ]}.

(** [PatchOwnerRef]: the patch as a map, the patch itself (the snapshot it
    is taken from) and the object with the owner reference set. *)
Definition PatchOwnerRef (owner object : Object) (scheme : Scheme)
    : (gmap string JSON * Object * Object) + error :=
  let beforeObject := object in
  match SetOwnerReference owner object scheme with
  | inr err => inr err
  | inl object' =>
      let patch := beforeObject in
      let patchDiff := mergePatchData beforeObject object' in
      inl (patchDiff, patch, object')
  end.

(** [EnsureOwnerRef]: the error and the object as the call leaves it. A
    patch that succeeds stores the owner references that were sent. *)
Definition EnsureOwnerRef (h : Helper) (owner object : Object)
    : Traced (option error * Object) :=
  match PatchOwnerRef owner object (GetScheme h) with
  | inr err => mret (Some err, object)
  | inl (patchDiff, patch, object') =>
      match patchDiff !! "metadata" with
      | Some _ =>
          err ← call (CallPatchObject object' patch)
                  (PatchObject (GetClient h) object' patch);
          match err with
          | Some e =>
              if IsConflict e then
                mret (Some (wrapError "error metadata update conflict: " e),
                      object')
              else if negb (IsNotFound e) then
                mret (Some (wrapError "error metadata update failed: " e),
                      object')
              else mret (None, object')
          | None => mret (None, object')
          end
      | None => mret (None, object')
      end
  end.

(** *** Owner readiness *)

(** The loop over the conditions of [IsOwnerServiceReady]: the value of
    [isReady] when the loop ends. *)
Fixpoint isReadyLoop (conditions : list JSON) : bool :=
  match conditions with
  | [] => false
  | c :: rest =>
      match c with
      | JMap condition =>
          let '(condType, _, _) := NestedString condition ["type"] in
          let '(status, _, _) := NestedString condition ["status"] in
          if bool_decide (condType = "Ready") && bool_decide (status = "True")
          then true
          else isReadyLoop rest
      | _ => isReadyLoop rest
      end
  end.

(** The part of [IsOwnerServiceReady] after the owner is fetched. *)
Definition ownerStatusReady (owner : gmap string JSON) : bool * option error :=
  let '(conditions, found, err) := NestedSlice owner ["status"; "conditions"] in
  if bool_decide (err <> None) || negb found then (false, None)
  else
    let isReady := isReadyLoop conditions in
    if negb isReady then (false, None)
    else
      let '(generation, foundGen, err) :=
        NestedInt64 owner ["metadata"; "generation"] in
      if bool_decide (err <> None) || negb foundGen then (false, None)
      else
        let '(observedGeneration, foundObsGen, err) :=
          NestedInt64 owner ["status"; "observedGeneration"] in
        if bool_decide (err <> None) || negb foundObsGen then (false, None)
        else if bool_decide (observedGeneration <> generation) then (false, None)
        else (true, None).

(** [IsOwnerServiceReady]. *)
Definition IsOwnerServiceReady (h : Helper) (obj : Object)
    : Traced (bool * option error) :=
  match find isController (OwnerReferences (Meta obj)) with
  | None => mret (true, None)
  | Some ownerRef =>
      match ParseGroupVersion (APIVersion ownerRef) with
      | inr err => mret (false, Some err)
      | inl gv =>
          let gvk := mkGVK (Group gv) (Version gv) (Kind ownerRef) in
          let key := mkNamespacedName (m_Namespace (Meta obj)) (Name ownerRef) in
          got ← call (CallGetUnstructured gvk key)
                  (GetUnstructured (GetClient h) gvk key);
          match got with
          | inr err =>
              if IsNotFound err then mret (true, None)
              else mret (false, Some err)
          | inl owner => mret (ownerStatusReady owner)
          end
      end
  end.

End object.

(** ** Package webhook *)

Module webhook.

(** [field.Path] of k8s.io/apimachinery: a chain of named elements. Only
    named children occur here ([NewPath], [Child]), so a path is the list of
    its names from the root; the nil pointer is the empty list. *)
Definition Path := list string.

(** [Path.Child(name)]: a new element whose root's parent is the receiver
    (also when the receiver is nil). *)
Definition Child (p : Path) (name : string) : Path := p ++ [name].

(** One element of [Path.String()]: a name is preceded by a dot unless it
    is the root; an element without a name is printed as a subscript. *)
Definition elem_String (is_root : bool) (name : string) : string :=
  if decide (name = "") then "[]"
  else if is_root then name else "." +:+ name.

Fixpoint tail_String (p : list string) : string :=
  match p with
  | [] => ""
  | n :: q => elem_String false n +:+ tail_String q
  end.

Definition Path_String (p : Path) : string :=
  match p with
  | [] => "<nil>"
  | n :: q => elem_String true n +:+ tail_String q
  end.

(** [field.ErrorType], the two that occur. *)
Inductive ErrorType := ErrorTypeInvalid | ErrorTypeForbidden.

(** [field.Error]. *)
Record Error := mkError {
  Type_ : ErrorType;
  Field : string;
  BadValue : string;
  Detail : string
}.

Definition Invalid (p : Path) (value detail : string) : Error :=
  mkError ErrorTypeInvalid (Path_String p) value detail.

Definition Forbidden (p : Path) (detail : string) : Error :=
  mkError ErrorTypeForbidden (Path_String p) "" detail.

(** [DeprecatedField]: a deprecated field and its replacement. *)
Record DeprecatedField := mkDeprecatedField {
  DeprecatedFieldName : string;
  NewFieldPath : list string;
  DeprecatedValue : option string;
  NewValue : option string
}.

(** [DeprecatedFieldUpdate]. *)
Record DeprecatedFieldUpdate := mkDeprecatedFieldUpdate {
  u_DeprecatedFieldName : string;
  u_NewFieldPath : list string;
  OldDeprecatedValue : option string;
  NewDeprecatedValue : option string;
  u_NewValue : option string
}.

Section Validators.

(** The [%q] verb of [fmt.Sprintf] (strconv.Quote): the formatting of a
    quoted string is the standard library's. *)
Variable Quote : string -> string.

Definition ValidateDeprecatedFieldConflict
    (deprecatedValue newValue : string)
    (deprecatedFieldPath newFieldPath : Path)
    (allowBothIfSame : bool) : string * option Error :=
  if bool_decide (deprecatedValue = "") && bool_decide (newValue = "") then
    ("", None)
  else if bool_decide (deprecatedValue <> "") && bool_decide (newValue = "") then
    let warning :=
      "field " +:+ Quote (Path_String deprecatedFieldPath) +:+
      " is deprecated, please use " +:+ Quote (Path_String newFieldPath) +:+
      " instead" in
    (warning, None)
  else if bool_decide (deprecatedValue = "") && bool_decide (newValue <> "") then
    ("", None)
  else if bool_decide (deprecatedValue = newValue) then
    if allowBothIfSame then
      let warning :=
        "both " +:+ Quote (Path_String deprecatedFieldPath) +:+
        " and " +:+ Quote (Path_String newFieldPath) +:+
        " are set with the same value. Please migrate to using only " +:+
        Quote (Path_String newFieldPath) +:+
        " and clear " +:+ Quote (Path_String deprecatedFieldPath) in
      (warning, None)
    else
      ("", Some (Invalid deprecatedFieldPath deprecatedValue
        ("cannot set both deprecated field " +:+
         Quote (Path_String deprecatedFieldPath) +:+
         " and new field " +:+ Quote (Path_String newFieldPath) +:+
         ". Use " +:+ Quote (Path_String newFieldPath) +:+ " only")))
  else
    ("", Some (Invalid deprecatedFieldPath deprecatedValue
      ("cannot set both deprecated field " +:+
       Quote (Path_String deprecatedFieldPath) +:+
       " and new field " +:+ Quote (Path_String newFieldPath) +:+
       " with different values (deprecated: " +:+ Quote deprecatedValue +:+
       ", new: " +:+ Quote newValue +:+
       "). Use " +:+ Quote (Path_String newFieldPath) +:+ " only"))).

Definition ValidateDeprecatedFieldChange
    (oldValue newValue : string)
    (deprecatedFieldPath newFieldPath : Path) : option Error :=
  if bool_decide (oldValue = newValue) then None
  else if bool_decide (newValue = "") then None
  else Some (Forbidden deprecatedFieldPath
    ("field " +:+ Quote (Path_String deprecatedFieldPath) +:+
     " is deprecated, use " +:+ Quote (Path_String newFieldPath) +:+
     " instead. To migrate, first set " +:+ Quote (Path_String newFieldPath) +:+
     ", then clear this field")).

(** Dereference of a [*string], nil read as the empty string. *)
Definition deref (p : option string) : string := default "" p.

Definition ValidateDeprecatedFieldConflictPtr
    (deprecatedValue newValue : option string)
    (deprecatedFieldPath newFieldPath : Path)
    (allowBothIfSame : bool) : string * option Error :=
  let oldVal := deref deprecatedValue in
  let newVal := deref newValue in
  ValidateDeprecatedFieldConflict oldVal newVal
    deprecatedFieldPath newFieldPath allowBothIfSame.

Definition ValidateDeprecatedFieldChangePtr
    (oldValue newValue : option string)
    (deprecatedFieldPath newFieldPath : Path) : option Error :=
  let oldVal := deref oldValue in
  let newVal := deref newValue in
  ValidateDeprecatedFieldChange oldVal newVal deprecatedFieldPath newFieldPath.

(** The inner loop [for _, segment := range df.NewFieldPath]. *)
Definition extendPath (basePath : Path) (segments : list string) : Path :=
  foldl Child basePath segments.

(** One iteration of the loop of [ValidateDeprecatedFieldsCreate], on the
    accumulated warnings. The second component of the conflict check is
    bound to the blank identifier. *)
Definition createStep (basePath : Path) (allWarnings : list string)
    (df : DeprecatedField) : list string :=
  let deprecatedPath := Child basePath (DeprecatedFieldName df) in
  let newPath := extendPath basePath (NewFieldPath df) in
  let '(warning, _) :=
    ValidateDeprecatedFieldConflictPtr (DeprecatedValue df) (NewValue df)
      deprecatedPath newPath true in
  if bool_decide (warning <> "") then allWarnings ++ [warning]
  else allWarnings.

Definition ValidateDeprecatedFieldsCreate
    (deprecatedFields : list DeprecatedField) (basePath : Path)
    : list string :=
  foldl (createStep basePath) [] deprecatedFields.

(** One iteration of the loop of [ValidateDeprecatedFieldsUpdate]. *)
Definition updateStep (basePath : Path)
    (acc : list string * list Error) (df : DeprecatedFieldUpdate)
    : list string * list Error :=
  let '(allWarnings, allErrors) := acc in
  let deprecatedPath := Child basePath (u_DeprecatedFieldName df) in
  let newPath := extendPath basePath (u_NewFieldPath df) in
  let '(warning, err) :=
    ValidateDeprecatedFieldConflictPtr (NewDeprecatedValue df) (u_NewValue df)
      deprecatedPath newPath true in
  let allWarnings :=
    if bool_decide (warning <> "") then allWarnings ++ [warning]
    else allWarnings in
  let allErrors :=
    match err with Some e => allErrors ++ [e] | None => allErrors end in
  let allErrors :=
    match ValidateDeprecatedFieldChangePtr (OldDeprecatedValue df)
            (NewDeprecatedValue df) deprecatedPath newPath with
    | Some e => allErrors ++ [e]
    | None => allErrors
    end in
  (allWarnings, allErrors).

Definition ValidateDeprecatedFieldsUpdate
    (deprecatedFields : list DeprecatedFieldUpdate) (basePath : Path)
    : list string * list Error :=
  foldl (updateStep basePath) ([], []) deprecatedFields.

End Validators.

End webhook.

(** * Vocabulary of the properties, and objects to run the functions on *)

Module webhook_terms.

Import webhook.

(** A quoting function to run the validators with: the text between two
    quote characters. *)
Definition dquote : string := String (ascii_of_nat 34) EmptyString.
Definition plainQuote (s : string) : string := dquote +:+ s +:+ dquote.

(** The warning of one deprecated-field mapping on create, and the error
    the conflict check computes for it. *)
Definition fieldCheck (Quote : string -> string) (basePath : Path)
    (df : DeprecatedField)
    : string * option Error :=
  ValidateDeprecatedFieldConflictPtr Quote (DeprecatedValue df) (NewValue df)
    (Child basePath (DeprecatedFieldName df))
    (extendPath basePath (NewFieldPath df)) true.

Definition fieldWarning (Quote : string -> string) (basePath : Path)
    (df : DeprecatedField)
    : option string :=
  let w := (fieldCheck Quote basePath df).1 in
  if bool_decide (w <> "") then Some w else None.

End webhook_terms.

Module object_terms.

Import k8s helper object.

(** The owner document as the specification reads it: a field of a
    sub-document, the list of conditions, an integer field. *)
Definition readField (owner : gmap string JSON) (a b : string)
    : option JSON :=
  match owner !! a with
  | Some (JMap m) => m !! b
  | _ => None
  end.

Definition readConditions (owner : gmap string JSON) : option (list JSON) :=
  match readField owner "status" "conditions" with
  | Some (JSlice l) => Some l
  | _ => None
  end.

Definition readInt64 (owner : gmap string JSON) (a b : string) : option Z :=
  match readField owner a b with
  | Some (JInt64 i) => Some i
  | _ => None
  end.

(** A condition entry with type "Ready" and status "True". *)
Definition isReadyTrue (c : JSON) : Prop :=
  exists m, c = JMap m /\
    m !! "type" = Some (JString "Ready") /\
    m !! "status" = Some (JString "True").

Definition hasReadyTrue (owner : gmap string JSON) : Prop :=
  exists conds c, readConditions owner = Some conds /\ c ∈ conds /\
                  isReadyTrue c.

(** The controller owner of [obj] has been fetched as [owner]: the first
    owner reference with the controller flag parses and the client answers
    the get with the document. *)
Definition fetchesOwner (h : Helper) (obj : Object)
    (owner : gmap string JSON) : Prop :=
  exists ownerRef gv,
    find isController (OwnerReferences (Meta obj)) = Some ownerRef /\
    ParseGroupVersion (APIVersion ownerRef) = inl gv /\
    GetUnstructured (GetClient h)
      (mkGVK (Group gv) (Version gv) (Kind ownerRef))
      (mkNamespacedName (m_Namespace (Meta obj)) (Name ownerRef)) = inl owner.

(** The controller owner of an object: the first owner reference whose
    controller flag is set. *)
Definition controllerOwner (obj : Object) (ownerRef : OwnerReference) : Prop :=
  exists pre post,
    OwnerReferences (Meta obj) = pre ++ ownerRef :: post /\
    Forall (fun r => Controller r <> Some true) pre /\
    Controller ownerRef = Some true.

Definition notFound : error :=
  StatusError StatusReasonNotFound 404 "configmaps not found".
Definition conflict : error :=
  StatusError StatusReasonConflict 409 "the object has been modified".
Definition serverError : error :=
  StatusError (StatusReasonListed "InternalError") 500 "internal error".

(** A client that answers every get with [got] and every patch of an
    object with [patched]. *)
Definition stubClient (got : gmap string JSON + error)
    (patched : option error) : Client :=
  mkClient (fun _ => inr notFound) (fun o => inl o) (fun o _ => inl o)
    (fun _ => None) (fun _ _ => got) (fun _ _ => patched).

Definition stubScheme : Scheme := fun t =>
  if bool_decide (t = "ConfigMap") then Some (mkGVK "" "v1" "ConfigMap")
  else if bool_decide (t = "Deployment")
       then Some (mkGVK "apps" "v1" "Deployment")
       else None.

Definition configMap (name uid : string) (refs : list OwnerReference)
    : Object :=
  mkObject "ConfigMap" (mkObjectMeta name "ns" uid ∅ ∅ refs).

Definition stubHelper (got : gmap string JSON + error)
    (patched : option error) : Helper :=
  mkHelper (stubClient got patched) stubScheme (configMap "self" "uid-0" []).

(** An owner document with one condition and the two generations. *)
Definition ownerDoc (status : string) (generation observed : Z)
    : gmap string JSON :=
  {[ "metadata" := JMap {[ "generation" := JInt64 generation ]};
     "status" := JMap
       {[ "conditions" := JSlice
            [JMap {[ "type" := JString "Ready";
                     "status" := JString status ]}];
          "observedGeneration" := JInt64 observed ]} ]}.

Definition controllerRef (apiVersion : string) : OwnerReference :=
  mkOwnerReference apiVersion "Deployment" "owner" "uid-1" (Some true)
    (Some true).

Definition child (apiVersion : string) : Object :=
  configMap "child" "uid-2"
    [mkOwnerReference "v1" "ConfigMap" "other" "uid-3" None None;
     controllerRef apiVersion].

(** The owner's UID, where the list holds it, is on the entry an upsert
    of [r] looks at: the first one that names the same object. *)
Definition uidAtOwnerEntry (r : OwnerReference) (l : list OwnerReference)
    : Prop :=
  forall i e, l !! i = Some e -> UID e = UID r -> indexOwnerRef l r = Some i.

(** A sequence of [EnsureOwnerRef] calls with one owner on one target,
    each call with its own helper: the target after the last call. *)
Fixpoint EnsureOwnerRef_seq (hs : list Helper) (owner object : Object)
    : Object :=
  match hs with
  | [] => object
  | h :: rest =>
      EnsureOwnerRef_seq rest owner (result (EnsureOwnerRef h owner object)).2
  end.

(** Fixtures: a Deployment that owns, and ConfigMaps that are owned. *)
Definition deployment : Object :=
  mkObject "Deployment" (mkObjectMeta "owner" "ns" "uid-1" ∅ ∅ []).

Definition plainRef : OwnerReference :=
  mkOwnerReference "apps/v1" "Deployment" "owner" "uid-1" None None.

Definition otherRef : OwnerReference :=
  mkOwnerReference "v1" "ConfigMap" "other" "uid-3" None None.

End object_terms.

Module clusterrole_terms.

Import k8s helper clusterrole.

(** Fixtures: a controller in the namespace [openstack], the ClusterRole it
    wants, and the ClusterRole that is live. *)
Definition keystone : Object :=
  mkObject "KeystoneAPI" (mkObjectMeta "keystone" "openstack" "uid-1" ∅ ∅ []).

Definition keystoneScheme : Scheme := fun t =>
  if bool_decide (t = "KeystoneAPI")
  then Some (mkGVK "keystone.openstack.org" "v1beta1" "KeystoneAPI")
  else None.

Definition readerRule : PolicyRule :=
  mkPolicyRule ["get"; "list"] [""] ["configmaps"] [] [].

Definition desiredRole : k8s.ClusterRole :=
  k8s.mkClusterRole
    (mkObjectMeta "reader" "openstack" "" ∅
       {[ "description" := "reader" ]} [])
    [readerRule].

Definition liveRole : k8s.ClusterRole :=
  k8s.mkClusterRole
    (mkObjectMeta "reader" "openstack" "uid-9"
       {[ "app" := "keystone" ]} {[ "note" := "keep" ]} [])
    [].

Definition roleClient (got created patched : k8s.ClusterRole + error)
    (deleted : option error) : Client :=
  mkClient (fun _ => got) (fun _ => created) (fun _ _ => patched)
    (fun _ => deleted) (fun _ _ => inr (errorString "unused"))
    (fun _ _ => None).

Definition roleHelper (c : Client) : Helper :=
  mkHelper c keystoneScheme keystone.

Definition notFound : error :=
  StatusError StatusReasonNotFound 404 "clusterroles not found".
Definition forbidden : error :=
  StatusError (StatusReasonListed "Forbidden") 403 "forbidden".

End clusterrole_terms.

Module webhook_update_terms.

Import webhook.

(** The mapping an update checks for conflicts, as a mapping of a create:
    the new value of the deprecated field against the new field. *)
Definition asCreate (df : DeprecatedFieldUpdate) : DeprecatedField :=
  mkDeprecatedField (u_DeprecatedFieldName df) (u_NewFieldPath df)
    (NewDeprecatedValue df) (u_NewValue df).

(** The errors one mapping adds on update: the conflict, then the change. *)
Definition fieldErrors (Quote : string -> string) (basePath : Path)
    (df : DeprecatedFieldUpdate) : list Error :=
  let deprecatedPath := Child basePath (u_DeprecatedFieldName df) in
  let newPath := extendPath basePath (u_NewFieldPath df) in
  option_list
    (ValidateDeprecatedFieldConflictPtr Quote (NewDeprecatedValue df)
       (u_NewValue df) deprecatedPath newPath true).2 ++
  option_list
    (ValidateDeprecatedFieldChangePtr Quote (OldDeprecatedValue df)
       (NewDeprecatedValue df) deprecatedPath newPath).

(** A mapping an update accepts: the deprecated field and the new field do
    not hold two different values, and the deprecated field is unchanged or
    cleared. *)
Definition acceptedUpdate (df : DeprecatedFieldUpdate) : Prop :=
  let o := deref (OldDeprecatedValue df) in
  let d := deref (NewDeprecatedValue df) in
  let n := deref (u_NewValue df) in
  (d = "" \/ n = "" \/ d = n) /\ (o = d \/ d = "").

End webhook_update_terms.

Module clusterrole_more_terms.

Import k8s.

(** The reference [SetControllerReference] builds for an owner: the plain
    reference with both flags set. *)
Definition controllerRefOf (gvk : GroupVersionKind) (owner : ObjectMeta)
    : OwnerReference :=
  mkOwnerReference
    (GroupVersion_String (mkGV (gvk_Group gvk) (gvk_Version gvk)))
    (gvk_Kind gvk) (m_Name owner) (m_UID owner) (Some true) (Some true).

(** The ClusterRole [reader] as the closure leaves it for the controller
    [keystone]: labels, annotations, rules and the controller reference. *)
Definition settledRole : ClusterRole :=
  mkClusterRole
    (mkObjectMeta "reader" "openstack" "uid-9"
       {[ "app" := "keystone" ]}
       ({[ "description" := "reader" ]} ∪ {[ "app" := "keystone" ]})
       [controllerRefOf (mkGVK "keystone.openstack.org" "v1beta1" "KeystoneAPI")
          (mkObjectMeta "keystone" "openstack" "uid-1" ∅ ∅ [])])
    [mkPolicyRule ["get"; "list"] [""] ["configmaps"] [] []].

End clusterrole_more_terms.

(** * Properties *)

(** ** Deprecated-field validators *)

Module webhook_spec.

Import webhook webhook_terms.

Section Conflict.

Variable Quote : string -> string.

Abbreviation Conflict := (ValidateDeprecatedFieldConflict Quote).
Abbreviation ConflictPtr := (ValidateDeprecatedFieldConflictPtr Quote).
Abbreviation Create := (ValidateDeprecatedFieldsCreate Quote).
Abbreviation fieldCheck := (webhook_terms.fieldCheck Quote).
Abbreviation fieldWarning := (webhook_terms.fieldWarning Quote).

Lemma createStep_fieldWarning basePath acc df :
  createStep Quote basePath acc df =
  acc ++ option_list (fieldWarning basePath df).
Proof.
  unfold createStep, fieldWarning, fieldCheck.
  destruct (ValidateDeprecatedFieldConflictPtr _ _ _ _ _ _) as [w e]; simpl.
  case_bool_decide; simpl; [done | by rewrite app_nil_r].
Qed.

Lemma create_foldl basePath fields acc :
  foldl (createStep Quote basePath) acc fields =
  acc ++ omap (fieldWarning basePath) fields.
Proof.
  revert acc. induction fields as [|df fields IH]; intros acc; simpl.
  - by rewrite app_nil_r.
  - rewrite IH, createStep_fieldWarning, <- app_assoc. f_equal.
    by destruct (fieldWarning basePath df).
Qed.

Lemma create_omap fields basePath :
  Create fields basePath = omap (fieldWarning basePath) fields.
Proof. unfold ValidateDeprecatedFieldsCreate. by rewrite create_foldl. Qed.

Lemma conflict_different d n dp np allow :
  d <> "" -> n <> "" -> d <> n ->
  (Conflict d n dp np allow).1 = "" /\ (Conflict d n dp np allow).2 <> None.
Proof.
  intros Hd Hn Hdn. unfold ValidateDeprecatedFieldConflict.
  repeat (case_bool_decide; simpl; try done).
Qed.

(** C9. [ValidateDeprecatedFieldConflict] on two strings and a flag: both
    empty, or only the new value set, gives no warning and no error; only
    the deprecated value set gives a warning and no error; both set to the
    same value gives a warning and no error when [allowBothIfSame] holds
    and an error when it does not; both set to different values gives an
    error whatever the flag. *)
Theorem ValidateDeprecatedFieldConflict_cases
    (d n : string) (dp np : Path) (allow : bool) :
  let r := Conflict d n dp np allow in
  (d = "" -> n = "" -> r = ("", None)) /\
  (d = "" -> n <> "" -> r = ("", None)) /\
  (d <> "" -> n = "" -> r.1 <> "" /\ r.2 = None) /\
  (d <> "" -> n <> "" -> d = n ->
     if allow then r.1 <> "" /\ r.2 = None else r.2 <> None) /\
  (d <> "" -> n <> "" -> d <> n -> r.2 <> None).
Proof.
  simpl. repeat split.
  - intros -> ->. reflexivity.
  - intros -> Hn. unfold ValidateDeprecatedFieldConflict.
    repeat (case_bool_decide; simpl; try done).
  - unfold ValidateDeprecatedFieldConflict.
    repeat (case_bool_decide; simpl; try done).
  - unfold ValidateDeprecatedFieldConflict.
    repeat (case_bool_decide; simpl; try done).
  - intros Hd Hn <-. unfold ValidateDeprecatedFieldConflict.
    repeat (case_bool_decide; simpl; try done).
    destruct allow; simpl; [split; done | done].
  - intros Hd Hn Hdn. by apply conflict_different.
Qed.

(** C10. [ValidateDeprecatedFieldsCreate] returns warnings only: its result
    is the list of the non-empty warnings of the per-field checks, in order,
    and the errors of those checks are dropped. A mapping whose deprecated
    field and replacement hold different non-empty values makes the check
    produce an error, yet it contributes nothing to the result, wherever it
    stands in the list. *)
Theorem ValidateDeprecatedFieldsCreate_discards_errors
    (fields : list DeprecatedField) (basePath : Path) :
  Create fields basePath = omap (fieldWarning basePath) fields /\
  forall df : DeprecatedField,
    deref (DeprecatedValue df) <> "" ->
    deref (NewValue df) <> "" ->
    deref (DeprecatedValue df) <> deref (NewValue df) ->
    (fieldCheck basePath df).2 <> None /\
    Create [df] basePath = [] /\
    forall before after : list DeprecatedField,
      Create (before ++ df :: after) basePath =
      Create (before ++ after) basePath.
Proof.
  split; [apply create_omap |].
  intros df Hd Hn Hdn.
  destruct (conflict_different _ _
              (Child basePath (DeprecatedFieldName df))
              (extendPath basePath (NewFieldPath df)) true Hd Hn Hdn)
    as [Hw He].
  assert (Hnone : fieldWarning basePath df = None).
  { unfold fieldWarning, fieldCheck, ValidateDeprecatedFieldConflictPtr.
    rewrite Hw. by rewrite bool_decide_eq_false_2 by (intros H; by apply H). }
  split; [exact He |]. split.
  - rewrite create_omap. simpl. by rewrite Hnone.
  - intros before after. rewrite !create_omap, !omap_app. simpl.
    by rewrite Hnone.
Qed.

End Conflict.

(** C9 at concrete values, one for each case. *)
Lemma ValidateDeprecatedFieldConflict_cases_witness :
  ValidateDeprecatedFieldConflict plainQuote "" "" ["spec"; "old"]
    ["spec"; "new"] true = ("", None) /\
  ValidateDeprecatedFieldConflict plainQuote "" "b" ["spec"; "old"]
    ["spec"; "new"] false = ("", None) /\
  (ValidateDeprecatedFieldConflict plainQuote "a" "" ["spec"; "old"]
     ["spec"; "new"] true).1 <> "" /\
  (ValidateDeprecatedFieldConflict plainQuote "a" "a" ["spec"; "old"]
     ["spec"; "new"] true).2 = None /\
  (ValidateDeprecatedFieldConflict plainQuote "a" "a" ["spec"; "old"]
     ["spec"; "new"] false).2 <> None /\
  (ValidateDeprecatedFieldConflict plainQuote "a" "b" ["spec"; "old"]
     ["spec"; "new"] true).2 <> None.
Proof.
  pose proof (ValidateDeprecatedFieldConflict_cases plainQuote "" ""
                ["spec"; "old"] ["spec"; "new"] true) as (H1 & _).
  pose proof (ValidateDeprecatedFieldConflict_cases plainQuote "" "b"
                ["spec"; "old"] ["spec"; "new"] false) as (_ & H2 & _).
  pose proof (ValidateDeprecatedFieldConflict_cases plainQuote "a" ""
                ["spec"; "old"] ["spec"; "new"] true) as (_ & _ & H3 & _).
  pose proof (ValidateDeprecatedFieldConflict_cases plainQuote "a" "a"
                ["spec"; "old"] ["spec"; "new"] true) as (_ & _ & _ & H4 & _).
  pose proof (ValidateDeprecatedFieldConflict_cases plainQuote "a" "a"
                ["spec"; "old"] ["spec"; "new"] false) as (_ & _ & _ & H5 & _).
  pose proof (ValidateDeprecatedFieldConflict_cases plainQuote "a" "b"
                ["spec"; "old"] ["spec"; "new"] true) as (_ & _ & _ & _ & H6).
  split; [exact (H1 eq_refl eq_refl) |].
  split; [exact (H2 eq_refl ltac:(discriminate)) |].
  split; [exact (proj1 (H3 ltac:(discriminate) eq_refl)) |].
  split; [exact (proj2 (H4 ltac:(discriminate) ltac:(discriminate) eq_refl)) |].
  split; [exact (H5 ltac:(discriminate) ltac:(discriminate) eq_refl) |].
  exact (H6 ltac:(discriminate) ltac:(discriminate) ltac:(discriminate)).
Defined.

(** C10 at a create whose deprecated field holds [a] and whose replacement
    holds [b]: the check fails and the create reports nothing. *)
Lemma ValidateDeprecatedFieldsCreate_discards_errors_witness :
  let df := mkDeprecatedField "rabbitMqClusterName" ["messagingBus"; "cluster"]
              (Some "a") (Some "b") in
  (fieldCheck plainQuote ["spec"] df).2 <> None /\
  ValidateDeprecatedFieldsCreate plainQuote [df] ["spec"] = [].
Proof.
  simpl.
  destruct (proj2 (ValidateDeprecatedFieldsCreate_discards_errors plainQuote
             [] ["spec"])
             (mkDeprecatedField "rabbitMqClusterName"
                ["messagingBus"; "cluster"] (Some "a") (Some "b"))
             ltac:(discriminate) ltac:(discriminate) ltac:(discriminate))
    as (He & Hw & _).
  split; [exact He | exact Hw].
Defined.

End webhook_spec.

(** ** Facts about the library models *)

Module k8s_facts.

Import k8s.

Lemma result_bind {A B} (m : Traced A) (k : A -> Traced B) :
  result (m ≫= k) = result (k (result m)).
Proof.
  destruct m as [a t]. unfold result, mbind, Traced_bind. simpl.
  by destruct (k a).
Qed.

Lemma calls_bind {A B} (m : Traced A) (k : A -> Traced B) :
  calls (m ≫= k) = calls m ++ calls (k (result m)).
Proof.
  destruct m as [a t]. unfold calls, result, mbind, Traced_bind. simpl.
  by destruct (k a).
Qed.

Lemma result_call {A} (c : Call) (a : A) : result (call c a) = a.
Proof. reflexivity. Qed.

Lemma result_ret {A} (a : A) : result (mret a : Traced A) = a.
Proof. reflexivity. Qed.

(** Wrapping with [%w] keeps the classification of an error. *)
Lemma IsConflict_wrapError p e : IsConflict (wrapError p e) = IsConflict e.
Proof. reflexivity. Qed.

Lemma IsNotFound_wrapError p e : IsNotFound (wrapError p e) = IsNotFound e.
Proof. reflexivity. Qed.

(** No error is both a conflict and a not-found. *)
Lemma IsNotFound_not_IsConflict e : IsNotFound e = true -> IsConflict e = false.
Proof.
  unfold IsNotFound, IsConflict.
  destruct (reasonAndCodeForError e) as [[| | r | r] c]; simpl; try done.
  intros H%bool_decide_eq_true. subst c. reflexivity.
Qed.

(** *** Group and version strings *)

Lemma count_slash_app a b :
  count_slash (a +:+ b) = count_slash a + count_slash b.
Proof. induction a as [|c a IH]; simpl; [done | rewrite IH; lia]. Qed.

Lemma split_slash_app g v :
  count_slash g = 0 -> split_slash (g +:+ "/" +:+ v) = (g, v).
Proof.
  induction g as [|c g IH]; simpl; [done |].
  destruct (decide (c = slash)); [done |]. intros Hg.
  by rewrite (IH Hg).
Qed.

Lemma count_slash_0_ne s : count_slash s = 0 -> s <> "/".
Proof. intros H ->. discriminate H. Qed.

(** A group and a version without a slash are read back from the string
    [GroupVersion.String] prints. *)
Lemma ParseGroupVersion_String gv :
  count_slash (Group gv) = 0 -> count_slash (Version gv) = 0 ->
  ParseGroupVersion (GroupVersion_String gv) = inl gv.
Proof.
  destruct gv as [g v]. simpl. intros Hg Hv.
  unfold GroupVersion_String. simpl.
  destruct (decide (g = "")) as [-> | Hne].
  - rewrite bool_decide_eq_false_2 by (by intros H).
    unfold ParseGroupVersion.
    destruct (decide (v = "")) as [-> | Hvne]; [done |].
    rewrite bool_decide_eq_false_2 by done.
    rewrite bool_decide_eq_false_2 by (by apply count_slash_0_ne).
    simpl. by rewrite Hv.
  - rewrite bool_decide_eq_true_2 by done.
    unfold ParseGroupVersion.
    destruct g as [|c g]; [done |].
    simpl in Hg. destruct (decide (c = slash)) as [|Hc]; [done |].
    simpl in Hg.
    rewrite bool_decide_eq_false_2 by done.
    rewrite bool_decide_eq_false_2.
    2:{ simpl. intros [= -> Hrest]. done. }
    simpl. rewrite !count_slash_app, Hg, Hv, (split_slash_app g v Hg). simpl.
    destruct (decide (c = slash)); done.
Qed.

(** *** Upserting an owner reference *)

Lemma referSameObject_refl r gv :
  ParseGroupVersion (APIVersion r) = inl gv -> referSameObject r r = true.
Proof.
  intros H. unfold referSameObject. rewrite H.
  by rewrite !bool_decide_eq_true_2.
Qed.

Lemma indexOwnerRef_None l r :
  indexOwnerRef l r = None <-> Forall (fun e => referSameObject e r = false) l.
Proof.
  induction l as [|e l IH]; simpl; [by split |].
  destruct (referSameObject e r) eqn:E.
  - split; [done |]. intros H. inversion H; congruence.
  - destruct (indexOwnerRef l r) eqn:Hi; simpl.
    + split; [done |]. intros H. apply Forall_cons in H as [_ H].
      by apply IH in H.
    + split; [| done]. intros _. constructor; [done | by apply IH].
Qed.

Lemma indexOwnerRef_Some l r i :
  indexOwnerRef l r = Some i <->
  exists e, l !! i = Some e /\ referSameObject e r = true /\
    forall j e', j < i -> l !! j = Some e' -> referSameObject e' r = false.
Proof.
  revert i. induction l as [|x l IH]; intros i; simpl.
  - split; [done |]. by intros (e & He & _).
  - destruct (referSameObject x r) eqn:E.
    + split.
      * intros [= <-]. exists x. repeat split; [done |]. intros j e' Hj. lia.
      * intros (e & He & Hr & Hmin). destruct i as [|i]; [done |].
        specialize (Hmin 0 x ltac:(lia) eq_refl). congruence.
    + split.
      * destruct (indexOwnerRef l r) as [k |] eqn:Hk; [| done].
        intros [= <-]. destruct (proj1 (IH k) eq_refl) as (e & He & Hr & Hmin).
        exists e. repeat split; [done | done |].
        intros [|j] e' Hj Hl; simpl in Hl; [congruence |].
        apply (Hmin j e'); [lia | done].
      * intros (e & He & Hr & Hmin). destruct i as [|i].
        -- simpl in He. congruence.
        -- simpl in He.
           assert (indexOwnerRef l r = Some i) as ->; [| done].
           apply IH. exists e. repeat split; [done | done |].
           intros j e' Hj Hl. apply (Hmin (S j) e'); [lia | done].
Qed.

(** An entry that is already the reference is left as it is. *)
Lemma upsertOwnerRef_present r l i :
  indexOwnerRef l r = Some i -> l !! i = Some r -> upsertOwnerRef r l = l.
Proof.
  intros Hi Hl. unfold upsertOwnerRef. rewrite Hi. by apply list_insert_id.
Qed.

(** After an upsert the reference sits at the index a further upsert
    looks at. *)
Lemma upsertOwnerRef_index r l :
  referSameObject r r = true ->
  exists i, indexOwnerRef (upsertOwnerRef r l) r = Some i /\
            upsertOwnerRef r l !! i = Some r.
Proof.
  intros Hrefl. unfold upsertOwnerRef.
  destruct (indexOwnerRef l r) as [i |] eqn:Hi.
  - exists i. apply indexOwnerRef_Some in Hi as (e & He & _ & Hmin).
    assert (Hlt : i < length l) by (by eapply lookup_lt_Some).
    split; [| by apply list_lookup_insert_eq].
    apply indexOwnerRef_Some. exists r.
    split; [by apply list_lookup_insert_eq |]. split; [done |].
    intros j e' Hj Hl. rewrite list_lookup_insert_ne in Hl by lia.
    by apply (Hmin j).
  - exists (length l). apply indexOwnerRef_None in Hi.
    split; [| by rewrite lookup_app_r, Nat.sub_diag by lia].
    apply indexOwnerRef_Some. exists r.
    split; [by rewrite lookup_app_r, Nat.sub_diag by lia |].
    split; [done |]. intros j e' Hj Hl.
    rewrite lookup_app_l in Hl by done.
    rewrite Forall_lookup in Hi. by apply (Hi j).
Qed.

Lemma upsertOwnerRef_idempotent r l :
  referSameObject r r = true ->
  upsertOwnerRef r (upsertOwnerRef r l) = upsertOwnerRef r l.
Proof.
  intros Hrefl. destruct (upsertOwnerRef_index r l Hrefl) as (i & Hi & Hl).
  by apply (upsertOwnerRef_present r _ i).
Qed.

End k8s_facts.

(** ** Owner-reference membership *)

Module object_spec.

Import k8s helper object k8s_facts object_terms.

Lemma IndexFunc_from_ge {A} (f : A -> bool) s i :
  IndexFunc_from i s f = (-1)%Z \/ (i <= IndexFunc_from i s f)%Z.
Proof.
  revert i. induction s as [|x s IH]; intros i; simpl; [by left |].
  destruct (f x); [right; lia |].
  destruct (IH (i + 1)%Z) as [H | H]; [by left | right; lia].
Qed.

Lemma IndexFunc_from_found {A} (f : A -> bool) s i :
  (0 <= i)%Z ->
  (0 <= IndexFunc_from i s f)%Z <-> exists x, x ∈ s /\ f x = true.
Proof.
  revert i. induction s as [|x s IH]; intros i Hi; simpl.
  - split; [lia |]. intros (x & Hx & _). by apply elem_of_nil in Hx.
  - destruct (f x) eqn:Hfx.
    + split; [| done]. intros _. exists x. split; [left | done].
    + rewrite IH by lia. split.
      * intros (y & Hy & Hfy). exists y. split; [by right | done].
      * intros (y & Hy & Hfy). apply elem_of_cons in Hy as [-> | Hy].
        -- congruence.
        -- by exists y.
Qed.

(** The index [slices.IndexFunc] returns points at the first element that
    satisfies the predicate. *)
Lemma IndexFunc_from_first {A} (f : A -> bool) s i :
  (0 <= i)%Z -> (0 <= IndexFunc_from i s f)%Z ->
  exists x, s !! Z.to_nat (IndexFunc_from i s f - i) = Some x /\ f x = true /\
    forall j y, (j < Z.to_nat (IndexFunc_from i s f - i))%nat ->
                s !! j = Some y -> f y = false.
Proof.
  revert i. induction s as [|x s IH]; intros i Hi; simpl; [lia |].
  destruct (f x) eqn:Hfx.
  - intros _. exists x. rewrite Z.sub_diag. simpl. repeat split; [done |].
    intros j y Hj. lia.
  - intros Hge. destruct (IH (i + 1)%Z ltac:(lia) Hge) as (y & Hy & Hfy & Hmin).
    destruct (IndexFunc_from_ge f s (i + 1)%Z) as [Hm | Hm]; [lia |].
    replace (Z.to_nat (IndexFunc_from (i + 1) s f - i))
      with (S (Z.to_nat (IndexFunc_from (i + 1) s f - (i + 1)))) by lia.
    exists y. simpl. repeat split; [done | done |].
    intros [|j] z Hj Hz; simpl in Hz; [congruence |].
    apply (Hmin j z); [lia | done].
Qed.

(** C5. [CheckOwnerRefExist uid refs] is true exactly when some element of
    [refs] has the UID [uid]. The function only reads its arguments: the
    predicate handed to [slices.IndexFunc] compares one field, and the
    slice is not written, so the embedding is a function from the two
    inputs to a boolean. *)
Theorem CheckOwnerRefExist_iff (uid : string) (ownerRefs : list OwnerReference) :
  CheckOwnerRefExist uid ownerRefs = true <->
  exists o, o ∈ ownerRefs /\ UID o = uid.
Proof.
  unfold CheckOwnerRefExist, IndexFunc.
  case_bool_decide as Hidx.
  - split; [intros _ | done].
    apply IndexFunc_from_found in Hidx as (o & Ho & Hf); [| lia].
    exists o. split; [done |]. by apply bool_decide_eq_true in Hf.
  - split; [done |]. intros (o & Ho & Hu). exfalso. apply Hidx.
    apply IndexFunc_from_found; [lia |]. exists o. split; [done |].
    by apply bool_decide_eq_true.
Qed.

(** ** Owner readiness *)

Lemma NestedFieldNoCopy_two owner a b :
  NestedFieldNoCopy owner [a; b] =
  match owner !! a with
  | None | Some JNull => (JNull, false, None)
  | Some (JMap m) =>
      match m !! b with
      | Some v => (v, true, None)
      | None => (JNull, false, None)
      end
  | Some _ => (JNull, false, Some accessorError)
  end.
Proof.
  unfold NestedFieldNoCopy. simpl.
  destruct (owner !! a) as [[] |]; try reflexivity.
Qed.

Lemma NestedSlice_read owner :
  match readConditions owner with
  | Some l => NestedSlice owner ["status"; "conditions"] = (l, true, None)
  | None =>
      exists l found err,
        NestedSlice owner ["status"; "conditions"] = (l, found, err) /\
        (err <> None \/ found = false)
  end.
Proof.
  unfold readConditions, readField, NestedSlice.
  rewrite NestedFieldNoCopy_two.
  destruct (owner !! "status") as [[| | | | | | st] |]; simpl;
    try (by eexists _, _, _; split; [reflexivity | auto]).
  destruct (st !! "conditions") as [[] |]; simpl;
    try (by eexists _, _, _; split; [reflexivity | auto]).
  reflexivity.
Qed.

Lemma NestedInt64_read owner a b :
  match readInt64 owner a b with
  | Some i => NestedInt64 owner [a; b] = (i, true, None)
  | None =>
      exists i found err,
        NestedInt64 owner [a; b] = (i, found, err) /\
        (err <> None \/ found = false)
  end.
Proof.
  unfold readInt64, readField, NestedInt64.
  rewrite NestedFieldNoCopy_two.
  destruct (owner !! a) as [[| | | | | | st] |]; simpl;
    try (by eexists _, _, _; split; [reflexivity | auto]).
  destruct (st !! b) as [[] |]; simpl;
    try (by eexists _, _, _; split; [reflexivity | auto]).
  reflexivity.
Qed.

(** [NestedString] on one field yields a non-empty text only for a string
    field with that text. *)
Lemma NestedString_one (m : gmap string JSON) (field text : string) :
  text <> "" ->
  (NestedString m [field]).1.1 = text <-> m !! field = Some (JString text).
Proof.
  intros Hne. unfold NestedString, NestedFieldNoCopy. simpl.
  destruct (m !! field) as [[] |]; simpl; split; intros H;
    try congruence; try (by inversion H).
Qed.

Lemma isReadyLoop_iff conds :
  isReadyLoop conds = true <-> exists c, c ∈ conds /\ isReadyTrue c.
Proof.
  induction conds as [|c conds IH]; simpl.
  - split; [done |]. intros (c & Hc & _). by apply elem_of_nil in Hc.
  - assert (Hrest : (exists c', c' ∈ conds /\ isReadyTrue c') ->
                    exists c', c' ∈ c :: conds /\ isReadyTrue c').
    { intros (c' & Hc' & Hr). exists c'. split; [by right | done]. }
    assert (Hinv : ~ isReadyTrue c ->
                   (exists c', c' ∈ c :: conds /\ isReadyTrue c') ->
                   exists c', c' ∈ conds /\ isReadyTrue c').
    { intros Hn (c' & Hc' & Hr). apply elem_of_cons in Hc' as [-> | Hc'];
        [done | by exists c']. }
    destruct c as [| | | | | | m];
      try (rewrite IH; split; [apply Hrest | apply Hinv];
           by intros (m' & Hm' & _)).
    pose proof (NestedString_one m "type" "Ready" ltac:(done)) as Ht.
    pose proof (NestedString_one m "status" "True" ltac:(done)) as Hs.
    destruct (NestedString m ["type"]) as [[condType ?] ?].
    destruct (NestedString m ["status"]) as [[status ?] ?].
    simpl in Ht, Hs.
    destruct (bool_decide (condType = "Ready")) eqn:H1;
      [destruct (bool_decide (status = "True")) eqn:H2 |]; simpl.
    + apply bool_decide_eq_true in H1, H2. split; [intros _ | done].
      exists (JMap m). split; [left |].
      exists m. split; [done |]. split; [by apply Ht | by apply Hs].
    + apply bool_decide_eq_false in H2.
      rewrite IH; split; [apply Hrest | apply Hinv].
      intros (m' & [= <-] & _ & Hst). by apply Hs in Hst.
    + apply bool_decide_eq_false in H1.
      rewrite IH; split; [apply Hrest | apply Hinv].
      intros (m' & [= <-] & Hty & _). by apply Ht in Hty.
Qed.

(** The verdict on a fetched owner, as the specification computes it. *)
Lemma ownerStatusReady_read owner :
  ownerStatusReady owner =
  match readConditions owner,
        readInt64 owner "metadata" "generation",
        readInt64 owner "status" "observedGeneration" with
  | Some conds, Some g, Some o =>
      (isReadyLoop conds && bool_decide (o = g), None)
  | _, _, _ => (false, None)
  end.
Proof.
  unfold ownerStatusReady.
  pose proof (NestedSlice_read owner) as Hc.
  pose proof (NestedInt64_read owner "metadata" "generation") as Hg.
  pose proof (NestedInt64_read owner "status" "observedGeneration") as Ho.
  destruct (readConditions owner) as [conds |].
  - rewrite Hc. simpl. destruct (isReadyLoop conds); simpl.
    + destruct (readInt64 owner "metadata" "generation") as [g |].
      * rewrite Hg. simpl.
        destruct (readInt64 owner "status" "observedGeneration") as [o |].
        -- rewrite Ho. simpl. by repeat case_bool_decide.
        -- destruct Ho as (i & found & err & -> & [He | ->]); simpl.
           ++ by rewrite bool_decide_eq_true_2.
           ++ by rewrite orb_true_r.
      * destruct Hg as (i & found & err & -> & [He | ->]); simpl.
        -- by rewrite bool_decide_eq_true_2.
        -- by rewrite orb_true_r.
    + by destruct (readInt64 owner "metadata" "generation"),
                  (readInt64 owner "status" "observedGeneration").
  - destruct Hc as (l & found & err & -> & [He | ->]); simpl.
    + by rewrite bool_decide_eq_true_2.
    + by rewrite orb_true_r.
Qed.

Lemma IsOwnerServiceReady_fetched h obj owner :
  fetchesOwner h obj owner ->
  result (IsOwnerServiceReady h obj) = ownerStatusReady owner.
Proof.
  intros (ownerRef & gv & Hfind & Hparse & Hget).
  unfold IsOwnerServiceReady. rewrite Hfind, Hparse.
  rewrite result_bind, result_call, Hget. reflexivity.
Qed.

Lemma isController_true r : isController r = true <-> Controller r = Some true.
Proof. unfold isController. destruct (Controller r) as [[] |]; by split. Qed.

Lemma find_isController_none refs :
  Forall (fun r => Controller r <> Some true) refs ->
  find isController refs = None.
Proof.
  induction 1 as [| r refs Hr _ IH]; simpl; [done |].
  destruct (isController r) eqn:E; [| done].
  by apply isController_true in E.
Qed.

Lemma find_isController_first pre ownerRef post :
  Forall (fun r => Controller r <> Some true) pre ->
  Controller ownerRef = Some true ->
  find isController (pre ++ ownerRef :: post) = Some ownerRef.
Proof.
  intros Hpre Hc. induction Hpre as [| r pre Hr _ IH]; simpl.
  - by rewrite (proj2 (isController_true ownerRef) Hc).
  - destruct (isController r) eqn:E; [| done].
    by apply isController_true in E.
Qed.

(** C2. For a fetched owner whose conditions hold an entry with type
    "Ready" and status "True", and whose [metadata.generation] and
    [status.observedGeneration] are integers: the result is [(true, nil)]
    when the two are equal and [(false, nil)] when they differ. *)
Theorem IsOwnerServiceReady_ready_by_generation
    (h : Helper) (obj : Object) (owner : gmap string JSON) (g o : Z) :
  fetchesOwner h obj owner ->
  hasReadyTrue owner ->
  readInt64 owner "metadata" "generation" = Some g ->
  readInt64 owner "status" "observedGeneration" = Some o ->
  (o = g -> result (IsOwnerServiceReady h obj) = (true, None)) /\
  (o <> g -> result (IsOwnerServiceReady h obj) = (false, None)).
Proof.
  intros Hfetch (conds & c & Hconds & Hc & Hready) Hg Ho.
  rewrite (IsOwnerServiceReady_fetched h obj owner Hfetch).
  rewrite ownerStatusReady_read, Hconds, Hg, Ho.
  rewrite (proj2 (isReadyLoop_iff conds)) by (by exists c).
  split; intros H; simpl.
  - by rewrite bool_decide_eq_true_2.
  - by rewrite bool_decide_eq_false_2.
Qed.

(** C3. For a fetched owner the result is [(false, nil)], with no error,
    whenever [status.conditions] cannot be read as a list, or no condition
    has type "Ready" with status "True", or [metadata.generation] or
    [status.observedGeneration] cannot be read as an integer. *)
Theorem IsOwnerServiceReady_waits
    (h : Helper) (obj : Object) (owner : gmap string JSON) :
  fetchesOwner h obj owner ->
  readConditions owner = None \/
  ~ hasReadyTrue owner \/
  readInt64 owner "metadata" "generation" = None \/
  readInt64 owner "status" "observedGeneration" = None ->
  result (IsOwnerServiceReady h obj) = (false, None).
Proof.
  intros Hfetch Hcase.
  rewrite (IsOwnerServiceReady_fetched h obj owner Hfetch).
  rewrite ownerStatusReady_read.
  destruct (readConditions owner) as [conds |] eqn:Hconds; [| done].
  destruct (isReadyLoop conds) eqn:Hloop.
  - destruct Hcase as [H | [H | [H | H]]].
    + done.
    + exfalso. apply H. apply isReadyLoop_iff in Hloop as (c & Hc & Hr).
      by exists conds, c.
    + by rewrite H.
    + rewrite H. by destruct (readInt64 owner "metadata" "generation").
  - by destruct (readInt64 owner "metadata" "generation"),
                (readInt64 owner "status" "observedGeneration").
Qed.

(** C4. Before any owner status is read: without an owner reference whose
    controller flag is set the result is [(true, nil)] and the client is
    not called; when the controller owner's apiVersion does not parse the
    result is [(false, err)] with the parse error, again without a call;
    when the get of the owner fails the result is [(true, nil)] for a
    not-found and [(false, err)] with the client's error otherwise. *)
Theorem IsOwnerServiceReady_before_status (h : Helper) (obj : Object) :
  (Forall (fun r => Controller r <> Some true) (OwnerReferences (Meta obj)) ->
   IsOwnerServiceReady h obj = ((true, None), [])) /\
  (forall ownerRef, controllerOwner obj ownerRef ->
     (forall err, ParseGroupVersion (APIVersion ownerRef) = inr err ->
        IsOwnerServiceReady h obj = ((false, Some err), [])) /\
     (forall gv err,
        ParseGroupVersion (APIVersion ownerRef) = inl gv ->
        GetUnstructured (GetClient h)
          (mkGVK (Group gv) (Version gv) (Kind ownerRef))
          (mkNamespacedName (m_Namespace (Meta obj)) (Name ownerRef))
          = inr err ->
        (IsNotFound err = true ->
           result (IsOwnerServiceReady h obj) = (true, None)) /\
        (IsNotFound err = false ->
           result (IsOwnerServiceReady h obj) = (false, Some err)))).
Proof.
  split.
  - intros Hnone. unfold IsOwnerServiceReady.
    by rewrite find_isController_none.
  - intros ownerRef (pre & post & Hrefs & Hpre & Hctrl).
    assert (Hfind : find isController (OwnerReferences (Meta obj))
                    = Some ownerRef)
      by (rewrite Hrefs; by apply find_isController_first).
    split.
    + intros err Hparse. unfold IsOwnerServiceReady.
      by rewrite Hfind, Hparse.
    + intros gv err Hparse Hget. unfold IsOwnerServiceReady.
      rewrite Hfind, Hparse, result_bind, result_call, Hget.
      split; intros ->; reflexivity.
Qed.

Lemma child_fetchesOwner owner patched :
  fetchesOwner (stubHelper (inl owner) patched) (child "apps/v1") owner.
Proof.
  exists (controllerRef "apps/v1"), (mkGV "apps" "v1").
  repeat split; reflexivity.
Defined.

Lemma ownerDoc_hasReadyTrue g o : hasReadyTrue (ownerDoc "True" g o).
Proof.
  exists [JMap {[ "type" := JString "Ready"; "status" := JString "True" ]}],
         (JMap {[ "type" := JString "Ready"; "status" := JString "True" ]}).
  split; [reflexivity |]. split; [left |].
  eexists. split; [reflexivity |]. split; reflexivity.
Defined.

(** C2 at a Deployment owner that is Ready: reconciled (generation 2
    observed as 2) and not yet reconciled (generation 3 observed as 2). *)
Lemma IsOwnerServiceReady_ready_by_generation_witness :
  result (IsOwnerServiceReady (stubHelper (inl (ownerDoc "True" 2 2)) None)
            (child "apps/v1")) = (true, None) /\
  result (IsOwnerServiceReady (stubHelper (inl (ownerDoc "True" 3 2)) None)
            (child "apps/v1")) = (false, None).
Proof.
  split.
  - apply (IsOwnerServiceReady_ready_by_generation
             (stubHelper (inl (ownerDoc "True" 2 2)) None) (child "apps/v1")
             (ownerDoc "True" 2 2) 2 2
             (child_fetchesOwner _ _) (ownerDoc_hasReadyTrue _ _)
             eq_refl eq_refl); reflexivity.
  - apply (IsOwnerServiceReady_ready_by_generation
             (stubHelper (inl (ownerDoc "True" 3 2)) None) (child "apps/v1")
             (ownerDoc "True" 3 2) 3 2
             (child_fetchesOwner _ _) (ownerDoc_hasReadyTrue _ _)
             eq_refl eq_refl); discriminate.
Defined.

(** C3 at an owner without a status (a ConfigMap) and at a Ready owner
    without an observed generation (a Pod). *)
Lemma IsOwnerServiceReady_waits_witness :
  result (IsOwnerServiceReady
            (stubHelper (inl {[ "kind" := JString "ConfigMap" ]}) None)
            (child "apps/v1")) = (false, None) /\
  result (IsOwnerServiceReady
            (stubHelper
               (inl {[ "metadata" := JMap {[ "generation" := JInt64 1 ]};
                       "status" := JMap {[ "conditions" := JSlice
                          [JMap {[ "type" := JString "Ready";
                                   "status" := JString "True" ]}] ]} ]})
               None)
            (child "apps/v1")) = (false, None).
Proof.
  split.
  - apply (IsOwnerServiceReady_waits _ _ _ (child_fetchesOwner _ _)).
    left. reflexivity.
  - apply (IsOwnerServiceReady_waits _ _ _ (child_fetchesOwner _ _)).
    right. right. right. reflexivity.
Defined.

(** C4 at an object without a controller owner, at one whose controller
    owner has the apiVersion [a/b/c], and at one whose owner is gone or
    cannot be fetched. *)
Lemma IsOwnerServiceReady_before_status_witness :
  IsOwnerServiceReady (stubHelper (inr serverError) None)
    (configMap "child" "uid-2"
       [mkOwnerReference "v1" "ConfigMap" "other" "uid-3" None (Some true)])
    = ((true, None), []) /\
  result (IsOwnerServiceReady (stubHelper (inr serverError) None)
            (child "a/b/c"))
    = (false, Some (errorString "unexpected GroupVersion string: a/b/c")) /\
  result (IsOwnerServiceReady (stubHelper (inr notFound) None)
            (child "apps/v1")) = (true, None) /\
  result (IsOwnerServiceReady (stubHelper (inr serverError) None)
            (child "apps/v1")) = (false, Some serverError).
Proof.
  assert (Hchild : forall v, controllerOwner (child v) (controllerRef v)).
  { intros v.
    exists [mkOwnerReference "v1" "ConfigMap" "other" "uid-3" None None], [].
    split; [reflexivity |]. split; [| reflexivity].
    constructor; [discriminate | constructor]. }
  split; [| split; [| split]].
  - apply (IsOwnerServiceReady_before_status (stubHelper (inr serverError) None)).
    constructor; [discriminate | constructor].
  - pose proof (proj2 (IsOwnerServiceReady_before_status
                         (stubHelper (inr serverError) None) (child "a/b/c"))
                  _ (Hchild "a/b/c")) as [Hparse _].
    by rewrite (Hparse _ eq_refl).
  - pose proof (proj2 (IsOwnerServiceReady_before_status
                         (stubHelper (inr notFound) None) (child "apps/v1"))
                  _ (Hchild "apps/v1")) as [_ Hget].
    apply (Hget (mkGV "apps" "v1") notFound eq_refl eq_refl). reflexivity.
  - pose proof (proj2 (IsOwnerServiceReady_before_status
                         (stubHelper (inr serverError) None) (child "apps/v1"))
                  _ (Hchild "apps/v1")) as [_ Hget].
    apply (Hget (mkGV "apps" "v1") serverError eq_refl eq_refl). reflexivity.
Defined.

(** ** Adding an owner reference *)

Lemma with_OwnerReferences_same o :
  with_OwnerReferences o (OwnerReferences (Meta o)) = o.
Proof. by destruct o as [t []]. Qed.

Lemma diffMeta_same m : diffMeta m m = ∅.
Proof.
  unfold diffMeta, diffOwnerReferences, diffString, diffStringMap.
  rewrite !bool_decide_eq_true_2 by done.
  by rewrite !(left_id_L ∅ (∪)).
Qed.

Lemma mergePatchData_same o : mergePatchData o o = ∅.
Proof.
  unfold mergePatchData. rewrite diffMeta_same.
  by rewrite bool_decide_eq_true_2.
Qed.

Lemma mergePatchData_ownerReferences before after :
  OwnerReferences (Meta before) <> OwnerReferences (Meta after) ->
  is_Some (mergePatchData before after !! "metadata").
Proof.
  intros Hne. unfold mergePatchData.
  assert (Hd : is_Some (diffMeta (Meta before) (Meta after)
                          !! "ownerReferences")).
  { unfold diffMeta, diffOwnerReferences.
    rewrite bool_decide_eq_false_2 by done.
    eexists. repeat apply lookup_union_Some_l. apply lookup_singleton_eq. }
  rewrite bool_decide_eq_false_2.
  - rewrite lookup_singleton_eq. by eexists.
  - intros Hempty. rewrite Hempty, lookup_empty in Hd. by destruct Hd.
Qed.

(** The object [EnsureOwnerRef] leaves is the one [SetOwnerReference]
    produced, whatever the client answered. *)
Lemma EnsureOwnerRef_object h owner object :
  (result (EnsureOwnerRef h owner object)).2 =
  match SetOwnerReference owner object (GetScheme h) with
  | inl object' => object'
  | inr _ => object
  end.
Proof.
  unfold EnsureOwnerRef, PatchOwnerRef.
  destruct (SetOwnerReference owner object (GetScheme h)) as [o' | err];
    [| done].
  destruct (mergePatchData object o' !! "metadata"); [| done].
  rewrite result_bind, result_call.
  destruct (PatchObject _ _ _) as [e |]; [| done].
  destruct (IsConflict e); [done |]. by destruct (IsNotFound e).
Qed.

Lemma upsertOwnerRef_NoDup r l :
  NoDup (UID <$> l) -> uidAtOwnerEntry r l ->
  NoDup (UID <$> upsertOwnerRef r l).
Proof.
  intros Hnd Hat. unfold upsertOwnerRef.
  destruct (indexOwnerRef l r) as [i |] eqn:Hi.
  - rewrite list_fmap_insert. apply NoDup_alt. intros j k x Hj Hk.
    rewrite NoDup_alt in Hnd.
    assert (Hother : forall n, n <> i ->
              <[i := UID r]> (UID <$> l) !! n = Some (UID r) -> False).
    { intros n Hn Hl. rewrite list_lookup_insert_ne in Hl by done.
      rewrite list_lookup_fmap in Hl.
      destruct (l !! n) as [e |] eqn:He; [| done]. simpl in Hl.
      injection Hl as Hu. specialize (Hat n e He Hu). congruence. }
    destruct (decide (j = i)) as [-> | Hji], (decide (k = i)) as [-> | Hki].
    + done.
    + assert (x = UID r) as ->.
      { apply list_lookup_insert_Some in Hj as [(_ & -> & _) | (? & _)]; done. }
      by destruct (Hother k Hki Hk).
    + assert (x = UID r) as ->.
      { apply list_lookup_insert_Some in Hk as [(_ & -> & _) | (? & _)]; done. }
      by destruct (Hother j Hji Hj).
    + rewrite list_lookup_insert_ne in Hj, Hk by done. by eapply Hnd.
  - rewrite fmap_app. simpl. apply NoDup_app. split; [done |].
    split; [| apply NoDup_singleton].
    intros x Hx Hin. apply list_elem_of_singleton in Hin as ->.
    apply list_elem_of_fmap in Hx as (e & Hu & He).
    apply list_elem_of_lookup in He as (i & He).
    specialize (Hat i e He (eq_sym Hu)). congruence.
Qed.

(** Without that condition an upsert can double a UID: here the list names
    the owner twice, first by an entry with another UID, and it is the
    first of the two that is overwritten. *)
Example upsertOwnerRef_doubles_uid :
  upsertOwnerRef plainRef
    [mkOwnerReference "apps/v1" "Deployment" "owner" "uid-0" None None;
     plainRef]
  = [plainRef; plainRef].
Proof. reflexivity. Qed.

Lemma SetOwnerReference_ok owner object scheme gvk :
  validateOwner (Meta owner) (Meta object) = None ->
  scheme (GoType owner) = Some gvk ->
  SetOwnerReference owner object scheme =
  inl (with_OwnerReferences object
         (upsertOwnerRef (ownerRefOf gvk (Meta owner))
            (OwnerReferences (Meta object)))).
Proof.
  intros Hv Hs. unfold SetOwnerReference, GVKForObject. by rewrite Hv, Hs.
Qed.

(** Nothing to do: the entry an upsert looks at is the reference already. *)
Lemma EnsureOwnerRef_present h owner object gvk i :
  validateOwner (Meta owner) (Meta object) = None ->
  GetScheme h (GoType owner) = Some gvk ->
  indexOwnerRef (OwnerReferences (Meta object)) (ownerRefOf gvk (Meta owner))
    = Some i ->
  OwnerReferences (Meta object) !! i = Some (ownerRefOf gvk (Meta owner)) ->
  PatchOwnerRef owner object (GetScheme h) = inl (∅, object, object) /\
  EnsureOwnerRef h owner object = ((None, object), []).
Proof.
  intros Hv Hs Hi Hl.
  assert (HP : PatchOwnerRef owner object (GetScheme h)
               = inl (∅, object, object)).
  { unfold PatchOwnerRef.
    rewrite (SetOwnerReference_ok _ _ _ gvk Hv Hs).
    rewrite (upsertOwnerRef_present _ _ i Hi Hl), with_OwnerReferences_same.
    by rewrite mergePatchData_same. }
  split; [done |]. unfold EnsureOwnerRef. by rewrite HP.
Qed.

Lemma ownerRefOf_refl gvk m :
  count_slash (gvk_Group gvk) = 0 -> count_slash (gvk_Version gvk) = 0 ->
  referSameObject (ownerRefOf gvk m) (ownerRefOf gvk m) = true.
Proof.
  intros Hg Hv. eapply referSameObject_refl. simpl.
  by apply ParseGroupVersion_String.
Qed.

Lemma EnsureOwnerRef_seq_NoDup scheme owner gvk hs : forall object,
  scheme (GoType owner) = Some gvk ->
  referSameObject (ownerRefOf gvk (Meta owner)) (ownerRefOf gvk (Meta owner))
    = true ->
  Forall (fun h => GetScheme h = scheme) hs ->
  NoDup (UID <$> OwnerReferences (Meta object)) ->
  uidAtOwnerEntry (ownerRefOf gvk (Meta owner)) (OwnerReferences (Meta object)) ->
  NoDup (UID <$> OwnerReferences (Meta (EnsureOwnerRef_seq hs owner object))).
Proof.
  induction hs as [|h hs IH]; intros object Hs Hrefl Hhs Hnd Hat; simpl;
    [done |].
  apply Forall_cons in Hhs as [Hh Hhs].
  rewrite EnsureOwnerRef_object, Hh.
  unfold SetOwnerReference, GVKForObject. rewrite Hs.
  destruct (validateOwner (Meta owner) (Meta object)); [by apply IH |].
  apply IH; try done.
  - destruct object as [t [n ns u lb an refs]]. simpl in *.
    by apply upsertOwnerRef_NoDup.
  - destruct object as [t [n ns u lb an refs]]. simpl in *.
    intros i e He Hu.
    destruct (upsertOwnerRef_index (ownerRefOf gvk (Meta owner)) refs Hrefl)
      as (k & Hk & Hlk).
    rewrite Hk. f_equal.
    pose proof (upsertOwnerRef_NoDup _ _ Hnd Hat) as Hnd'.
    rewrite NoDup_alt in Hnd'. apply (Hnd' k i (UID e)).
    + rewrite list_lookup_fmap, Hlk. simpl. by rewrite Hu.
    + by rewrite list_lookup_fmap, He.
Qed.

(** An upsert leaves the list as it is exactly when the entry it looks
    at is the reference already. *)
Lemma upsertOwnerRef_same_iff r l :
  upsertOwnerRef r l = l <->
  exists i, indexOwnerRef l r = Some i /\ l !! i = Some r.
Proof.
  split.
  - unfold upsertOwnerRef.
    destruct (indexOwnerRef l r) as [i |] eqn:Hi.
    + intros Heq. exists i. split; [done |].
      apply indexOwnerRef_Some in Hi as (e & He & _).
      rewrite <- Heq. apply list_lookup_insert_eq.
      by eapply lookup_lt_Some.
    + intros Heq. apply (f_equal length) in Heq.
      rewrite length_app in Heq. simpl in Heq. lia.
  - intros (i & Hi & Hl). by apply (upsertOwnerRef_present r l i).
Qed.

(** The calls of [EnsureOwnerRef] for an owner that may own the target:
    none when the upsert changes nothing, the one patch otherwise. *)
Lemma EnsureOwnerRef_calls_cases h owner object gvk :
  validateOwner (Meta owner) (Meta object) = None ->
  GetScheme h (GoType owner) = Some gvk ->
  let refs' := upsertOwnerRef (ownerRefOf gvk (Meta owner))
                 (OwnerReferences (Meta object)) in
  (refs' = OwnerReferences (Meta object) ->
     calls (EnsureOwnerRef h owner object) = []) /\
  (refs' <> OwnerReferences (Meta object) ->
     calls (EnsureOwnerRef h owner object)
       = [CallPatchObject (with_OwnerReferences object refs') object]).
Proof.
  intros Hv Hs refs'. unfold EnsureOwnerRef, PatchOwnerRef.
  rewrite (SetOwnerReference_ok _ _ _ gvk Hv Hs). fold refs'.
  split.
  - intros ->. by rewrite with_OwnerReferences_same, mergePatchData_same.
  - intros Hne.
    destruct (mergePatchData_ownerReferences object
                (with_OwnerReferences object refs')) as [v Hmeta].
    { destruct object as [t [n ns u lb an l]]. simpl in *.
      intros Heq. apply Hne. by rewrite <- Heq. }
    rewrite Hmeta, calls_bind. simpl.
    destruct (PatchObject _ _ _) as [e |]; [| done].
    destruct (IsConflict e); [done |]. by destruct (IsNotFound e).
Qed.

(** C6, as amended. Let [r] be the plain reference [EnsureOwnerRef] builds
    for the owner, registered under a group and a version without a slash,
    for an owner that may own the target. When the first entry of the
    target's list that names the owner (same group, kind and name) is [r]
    already, the diff is empty, no call is made on the client and the
    target is left as it is; this is the case after any earlier
    [EnsureOwnerRef] call with that owner. No call is made exactly in that
    case: otherwise one patch is sent, of the target in which that first
    entry is rewritten to [r], or to which [r] is appended when no entry
    names the owner. And when the UIDs of the target's list are pairwise
    distinct, with the owner's UID, if present, on the first entry that
    names the owner, then after every sequence of calls with that owner
    the UIDs are pairwise distinct. *)
Theorem EnsureOwnerRef_idempotent
    (scheme : Scheme) (owner object : Object) (gvk : GroupVersionKind) :
  scheme (GoType owner) = Some gvk ->
  count_slash (gvk_Group gvk) = 0 ->
  count_slash (gvk_Version gvk) = 0 ->
  let r := ownerRefOf gvk (Meta owner) in
  (validateOwner (Meta owner) (Meta object) = None ->
   (forall h i,
      GetScheme h = scheme ->
      indexOwnerRef (OwnerReferences (Meta object)) r = Some i ->
      OwnerReferences (Meta object) !! i = Some r ->
      PatchOwnerRef owner object (GetScheme h) = inl (∅, object, object) /\
      EnsureOwnerRef h owner object = ((None, object), [])) /\
   (forall h1 h2,
      GetScheme h1 = scheme -> GetScheme h2 = scheme ->
      let object1 := (result (EnsureOwnerRef h1 owner object)).2 in
      EnsureOwnerRef h2 owner object1 = ((None, object1), [])) /\
   (forall h,
      GetScheme h = scheme ->
      let refs := OwnerReferences (Meta object) in
      let object' := with_OwnerReferences object (upsertOwnerRef r refs) in
      (calls (EnsureOwnerRef h owner object) = [] <->
         exists i, indexOwnerRef refs r = Some i /\ refs !! i = Some r) /\
      (calls (EnsureOwnerRef h owner object) <> [] ->
         calls (EnsureOwnerRef h owner object)
           = [CallPatchObject object' object] /\
         (result (EnsureOwnerRef h owner object)).2 = object' /\
         (forall i, indexOwnerRef refs r = Some i ->
            OwnerReferences (Meta object') = <[i := r]> refs) /\
         (indexOwnerRef refs r = None ->
            OwnerReferences (Meta object') = refs ++ [r])))) /\
  (NoDup (UID <$> OwnerReferences (Meta object)) ->
   uidAtOwnerEntry r (OwnerReferences (Meta object)) ->
   forall hs,
     Forall (fun h => GetScheme h = scheme) hs ->
     NoDup (UID <$> OwnerReferences (Meta (EnsureOwnerRef_seq hs owner object)))).
Proof.
  intros Hs Hg Hv r.
  pose proof (ownerRefOf_refl gvk (Meta owner) Hg Hv) as Hrefl.
  split.
  - intros Hvalid. split; [| split].
    + intros h i <- Hi Hl. by apply (EnsureOwnerRef_present h owner object gvk i).
    + intros h1 h2 Hh1 Hh2 object1. subst object1.
      rewrite EnsureOwnerRef_object, Hh1.
      rewrite (SetOwnerReference_ok _ _ _ gvk Hvalid Hs).
      destruct (upsertOwnerRef_index r (OwnerReferences (Meta object)) Hrefl)
        as (k & Hk & Hlk).
      eapply (EnsureOwnerRef_present h2 owner _ gvk k).
      * by destruct object as [t []].
      * by rewrite Hh2.
      * by destruct object as [t []].
      * by destruct object as [t []].
    + intros h Hh refs object'.
      assert (Hsh : GetScheme h (GoType owner) = Some gvk) by (by rewrite Hh).
      destruct (EnsureOwnerRef_calls_cases h owner object gvk Hvalid Hsh)
        as [Hsame Hdiff].
      fold r refs in Hsame, Hdiff. fold object' in Hdiff.
      destruct (decide (upsertOwnerRef r refs = refs)) as [Heq | Hne].
      * split; [| by rewrite (Hsame Heq)].
        split; [intros _; by apply upsertOwnerRef_same_iff | intros _; auto].
      * split.
        -- rewrite (Hdiff Hne). split; [done |].
           intros Hex. by apply upsertOwnerRef_same_iff in Hex.
        -- intros _. split; [by apply Hdiff |].
           split.
           ++ rewrite EnsureOwnerRef_object, Hh.
              by rewrite (SetOwnerReference_ok _ _ _ gvk Hvalid Hs).
           ++ subst object'. destruct object as [t [n ns u lb an l]].
              simpl in *. subst refs. unfold upsertOwnerRef.
              split; [intros i -> | intros ->]; done.
  - intros Hnd Hat hs Hhs.
    by apply (EnsureOwnerRef_seq_NoDup scheme owner gvk hs object).
Qed.

(** C7. When [EnsureOwnerRef] submits a patch (the diff has the key
    [metadata]) and the client answers with an error: a conflict comes back
    wrapped as an update conflict and is still classified as a conflict; a
    not-found gives nil; any other error comes back wrapped as an update
    failure. *)
Theorem EnsureOwnerRef_patch_errors
    (h : Helper) (owner object object' patch : Object)
    (patchDiff : gmap string JSON) (e : error) :
  PatchOwnerRef owner object (GetScheme h) = inl (patchDiff, patch, object') ->
  is_Some (patchDiff !! "metadata") ->
  PatchObject (GetClient h) object' patch = Some e ->
  calls (EnsureOwnerRef h owner object) = [CallPatchObject object' patch] /\
  (IsConflict e = true ->
     (result (EnsureOwnerRef h owner object)).1
       = Some (wrapError "error metadata update conflict: " e) /\
     IsConflict_opt (result (EnsureOwnerRef h owner object)).1 = true) /\
  (IsNotFound e = true ->
     (result (EnsureOwnerRef h owner object)).1 = None) /\
  (IsConflict e = false -> IsNotFound e = false ->
     (result (EnsureOwnerRef h owner object)).1
       = Some (wrapError "error metadata update failed: " e)).
Proof.
  intros HP [v Hmeta] Hpatch. unfold EnsureOwnerRef.
  rewrite HP, Hmeta. rewrite calls_bind, result_bind, result_call, Hpatch.
  split; [| split; [| split]].
  - simpl. destruct (IsConflict e); [done |]. by destruct (IsNotFound e).
  - intros Hc. rewrite Hc. simpl. by rewrite IsConflict_wrapError.
  - intros Hnf. by rewrite (IsNotFound_not_IsConflict e Hnf), Hnf.
  - intros Hc Hnf. by rewrite Hc, Hnf.
Qed.

(** C6 as stated fails on a target that the owner controls. The target
    holds the owner's controller reference, so [CheckOwnerRefExist] finds
    the owner's UID in the list; yet [EnsureOwnerRef] overwrites that entry
    with the plain reference, the diff has the key [metadata] and a patch
    is sent. *)
Lemma EnsureOwnerRef_patches_controller_ref :
  let target := child "apps/v1" in
  let target' := configMap "child" "uid-2" [otherRef; plainRef] in
  CheckOwnerRefExist (m_UID (Meta deployment)) (OwnerReferences (Meta target))
    = true /\
  (exists patchDiff,
     PatchOwnerRef deployment target stubScheme
       = inl (patchDiff, target, target') /\
     is_Some (patchDiff !! "metadata")) /\
  EnsureOwnerRef (stubHelper (inr notFound) None) deployment target
    = ((None, target'), [CallPatchObject target' target]).
Proof.
  simpl. split; [reflexivity |]. split.
  - eexists. split; [reflexivity |].
    apply mergePatchData_ownerReferences. discriminate.
  - assert (Hmeta : is_Some (mergePatchData (child "apps/v1")
                (configMap "child" "uid-2" [otherRef; plainRef]) !! "metadata"))
      by (apply mergePatchData_ownerReferences; discriminate).
    destruct Hmeta as [v Hv].
    unfold EnsureOwnerRef, PatchOwnerRef.
    change (SetOwnerReference deployment (child "apps/v1")
              (GetScheme (stubHelper (inr notFound) None)))
      with (inl (configMap "child" "uid-2" [otherRef; plainRef])
              : Object + error).
    cbv beta iota. rewrite Hv. reflexivity.
Qed.

(** C6, as amended, at a ConfigMap that holds one other owner: the first
    call adds the Deployment, a second call does nothing, and the UIDs
    stay distinct whatever the client answers. *)
Lemma EnsureOwnerRef_idempotent_witness :
  (result (EnsureOwnerRef (stubHelper (inr notFound) None) deployment
             (configMap "child" "uid-2" [otherRef]))).2
    = configMap "child" "uid-2" [otherRef; plainRef] /\
  calls (EnsureOwnerRef (stubHelper (inr notFound) None) deployment
           (configMap "child" "uid-2" [otherRef]))
    = [CallPatchObject (configMap "child" "uid-2" [otherRef; plainRef])
         (configMap "child" "uid-2" [otherRef])] /\
  EnsureOwnerRef (stubHelper (inr notFound) (Some conflict)) deployment
    (configMap "child" "uid-2" [otherRef; plainRef])
    = ((None, configMap "child" "uid-2" [otherRef; plainRef]), []) /\
  NoDup (UID <$> OwnerReferences (Meta
    (EnsureOwnerRef_seq
       [stubHelper (inr notFound) (Some conflict);
        stubHelper (inr notFound) None;
        stubHelper (inr notFound) (Some serverError)]
       deployment (configMap "child" "uid-2" [otherRef])))).
Proof.
  pose proof (EnsureOwnerRef_idempotent stubScheme deployment
                (configMap "child" "uid-2" [otherRef])
                (mkGVK "apps" "v1" "Deployment") eq_refl eq_refl eq_refl)
    as [Hone Hseq].
  destruct (Hone eq_refl) as (_ & Htwice & Hcalls).
  pose proof (Htwice (stubHelper (inr notFound) None)
                (stubHelper (inr notFound) (Some conflict)) eq_refl eq_refl)
    as H2.
  cbv zeta in H2. rewrite EnsureOwnerRef_object in H2.
  pose proof (Hcalls (stubHelper (inr notFound) None) eq_refl) as H3.
  cbv zeta in H3. destruct H3 as [_ H3].
  split; [rewrite EnsureOwnerRef_object; reflexivity |].
  split; [apply H3; vm_compute; discriminate |].
  split; [exact H2 |].
  apply Hseq.
  - apply NoDup_cons. split; [apply not_elem_of_nil | apply NoDup_nil_2].
  - intros [|i] e He Hu; simpl in He; [| done].
    injection He as <-. discriminate Hu.
  - repeat constructor.
Defined.

Lemma PatchOwnerRef_deployment :
  PatchOwnerRef deployment (configMap "child" "uid-2" [otherRef]) stubScheme
  = inl (mergePatchData (configMap "child" "uid-2" [otherRef])
           (configMap "child" "uid-2" [otherRef; plainRef]),
         configMap "child" "uid-2" [otherRef],
         configMap "child" "uid-2" [otherRef; plainRef]).
Proof. reflexivity. Defined.

(** C7 at a ConfigMap that does not yet hold the Deployment, with a client
    that answers the patch with a conflict, a not-found and a server
    error. *)
Lemma EnsureOwnerRef_patch_errors_witness :
  (result (EnsureOwnerRef (stubHelper (inr notFound) (Some conflict))
             deployment (configMap "child" "uid-2" [otherRef]))).1
    = Some (wrapError "error metadata update conflict: " conflict) /\
  (result (EnsureOwnerRef (stubHelper (inr notFound) (Some notFound))
             deployment (configMap "child" "uid-2" [otherRef]))).1 = None /\
  (result (EnsureOwnerRef (stubHelper (inr notFound) (Some serverError))
             deployment (configMap "child" "uid-2" [otherRef]))).1
    = Some (wrapError "error metadata update failed: " serverError).
Proof.
  assert (Hmeta : is_Some
            (mergePatchData (configMap "child" "uid-2" [otherRef])
               (configMap "child" "uid-2" [otherRef; plainRef]) !! "metadata"))
    by (apply mergePatchData_ownerReferences; discriminate).
  pose proof (EnsureOwnerRef_patch_errors
                (stubHelper (inr notFound) (Some conflict)) deployment
                _ _ _ _ conflict PatchOwnerRef_deployment Hmeta eq_refl)
    as (_ & Hc & _ & _).
  pose proof (EnsureOwnerRef_patch_errors
                (stubHelper (inr notFound) (Some notFound)) deployment
                _ _ _ _ notFound PatchOwnerRef_deployment Hmeta eq_refl)
    as (_ & _ & Hn & _).
  pose proof (EnsureOwnerRef_patch_errors
                (stubHelper (inr notFound) (Some serverError)) deployment
                _ _ _ _ serverError PatchOwnerRef_deployment Hmeta eq_refl)
    as (_ & _ & _ & Ho).
  split; [exact (proj1 (Hc eq_refl)) |].
  split; [exact (Hn eq_refl) | exact (Ho eq_refl eq_refl)].
Defined.

End object_spec.

(** ** ClusterRole reconciliation *)

Module clusterrole_spec.

Import k8s helper clusterrole k8s_facts clusterrole_terms.

(** What the closure of [CreateOrPatch] writes into the live object. *)
Lemma mutateFn_fields (r : ClusterRole) (h : Helper) (live : k8s.ClusterRole) :
  let desired := clusterrole r in
  let mutated := (mutateFn r h live).1 in
  Labels (ObjectMeta_ mutated)
    = util.MergeStringMaps (Labels (ObjectMeta_ live))
        (Labels (ObjectMeta_ desired)) /\
  Annotations (ObjectMeta_ mutated)
    = util.MergeStringMaps
        (util.MergeStringMaps (Labels (ObjectMeta_ live))
           (Labels (ObjectMeta_ desired)))
        (Annotations (ObjectMeta_ desired)) /\
  Rules mutated = Rules desired.
Proof.
  simpl. unfold mutateFn.
  destruct (SetControllerReference _ _ _); simpl; done.
Qed.

(** The live annotations are not read: two live objects that differ in
    their annotations only get the same annotations. *)
Lemma mutateFn_ignores_annotations r h live a :
  Annotations (ObjectMeta_ (mutateFn r h live).1)
  = Annotations (ObjectMeta_
      (mutateFn r h
         (k8s.mkClusterRole (set_Annotations (ObjectMeta_ live) a)
            (Rules live))).1).
Proof.
  destruct (mutateFn_fields r h live) as (_ & -> & _).
  destruct (mutateFn_fields r h
              (k8s.mkClusterRole (set_Annotations (ObjectMeta_ live) a)
                 (Rules live))) as (_ & -> & _).
  reflexivity.
Qed.

(** C1 fails on the code: the annotations are merged from the labels. On a
    live ClusterRole with the label [app] and the annotation [note], and a
    desired one with the annotation [description], the closure leaves the
    annotations [app] and [description]: the live annotation is lost and
    the label is copied, where the merge of the live with the desired
    annotations has [note] and [description]. Labels and rules are set as
    the claim says. *)
Theorem mutateFn_annotations_from_labels :
  let r := NewClusterRole desiredRole 5000000000 in
  let h := roleHelper (roleClient (inl liveRole) (inl liveRole)
                         (inl liveRole) None) in
  let mutated := (mutateFn r h liveRole).1 in
  Labels (ObjectMeta_ mutated) = {[ "app" := "keystone" ]} /\
  Rules mutated = [readerRule] /\
  Annotations (ObjectMeta_ mutated) !! "app" = Some "keystone" /\
  Annotations (ObjectMeta_ mutated) !! "note" = None /\
  util.MergeStringMaps (Annotations (ObjectMeta_ liveRole))
    (Annotations (ObjectMeta_ desiredRole)) !! "app" = None /\
  util.MergeStringMaps (Annotations (ObjectMeta_ liveRole))
    (Annotations (ObjectMeta_ desiredRole)) !! "note" = Some "keep" /\
  Annotations (ObjectMeta_ mutated)
    <> util.MergeStringMaps (Annotations (ObjectMeta_ liveRole))
         (Annotations (ObjectMeta_ desiredRole)).
Proof.
  intros r h mutated.
  destruct (mutateFn_fields r h liveRole) as (Hl & Ha & Hr).
  fold mutated in Hl, Ha, Hr. rewrite Hl, Ha, Hr.
  split; [reflexivity |]. split; [reflexivity |].
  split; [reflexivity |]. split; [reflexivity |].
  split; [reflexivity |]. split; [reflexivity |].
  intros Heq. apply (f_equal (fun m => m !! "note")) in Heq.
  discriminate Heq.
Qed.

(** C8. When the create-or-patch transaction on the client ends with an
    error that is a not-found, [CreateOrPatch] returns a result whose
    [RequeueAfter] is the configured timeout, and no error. [Delete]
    returns nil when the client's delete answers not-found, and an error
    that wraps the client's error on any other failure. *)
Theorem CreateOrPatch_requeue_and_Delete_absent (r : ClusterRole) (h : Helper) :
  (forall op err left,
     result (k8s.CreateOrPatch (GetClient h) (newObject r) (mutateFn r h))
       = (op, Some err, left) ->
     IsNotFound err = true ->
     result (CreateOrPatch r h) = (mkResult false (timeout r), None)) /\
  (forall e,
     DeleteClusterRole (GetClient h) (clusterrole r) = Some e ->
     (IsNotFound e = true -> result (Delete r h) = None) /\
     (IsNotFound e = false ->
        result (Delete r h)
          = Some (wrapError
                    ("Error deleting clusterrole " +:+
                     m_Name (ObjectMeta_ (clusterrole r)) +:+ ": ") e))).
Proof.
  split.
  - intros op err left Htx Hnf. unfold CreateOrPatch.
    rewrite result_bind, Htx. simpl. by rewrite Hnf.
  - intros e Hdel. unfold Delete.
    rewrite result_bind, result_call, Hdel.
    split; intros ->; reflexivity.
Qed.

Lemma CreateOrPatch_patch_not_found :
  result (k8s.CreateOrPatch
            (roleClient (inl liveRole) (inl liveRole) (inr notFound) None)
            (newObject (NewClusterRole desiredRole 5000000000))
            (mutateFn (NewClusterRole desiredRole 5000000000)
               (roleHelper (roleClient (inl liveRole) (inl liveRole)
                              (inr notFound) None))))
  = (OperationResultNone, Some notFound,
     (mutateFn (NewClusterRole desiredRole 5000000000)
        (roleHelper (roleClient (inl liveRole) (inl liveRole)
                       (inr notFound) None)) liveRole).1).
Proof. vm_compute. reflexivity. Defined.

(** C8 at a live ClusterRole whose patch answers not-found (requeue after
    5 s), and at deletes that answer not-found and forbidden. *)
Lemma CreateOrPatch_requeue_and_Delete_absent_witness :
  result (CreateOrPatch (NewClusterRole desiredRole 5000000000)
            (roleHelper (roleClient (inl liveRole) (inl liveRole)
                           (inr notFound) None)))
    = (mkResult false 5000000000, None) /\
  result (Delete (NewClusterRole desiredRole 5000000000)
            (roleHelper (roleClient (inl liveRole) (inl liveRole)
                           (inl liveRole) (Some notFound))))
    = None /\
  result (Delete (NewClusterRole desiredRole 5000000000)
            (roleHelper (roleClient (inl liveRole) (inl liveRole)
                           (inl liveRole) (Some forbidden))))
    = Some (wrapError "Error deleting clusterrole reader: " forbidden).
Proof.
  split; [| split].
  - exact (proj1 (CreateOrPatch_requeue_and_Delete_absent
                    (NewClusterRole desiredRole 5000000000)
                    (roleHelper (roleClient (inl liveRole) (inl liveRole)
                                   (inr notFound) None)))
             _ _ _ CreateOrPatch_patch_not_found eq_refl).
  - exact (proj1 (proj2 (CreateOrPatch_requeue_and_Delete_absent
                    (NewClusterRole desiredRole 5000000000)
                    (roleHelper (roleClient (inl liveRole) (inl liveRole)
                                   (inl liveRole) (Some notFound))))
             notFound eq_refl) eq_refl).
  - exact (proj2 (proj2 (CreateOrPatch_requeue_and_Delete_absent
                    (NewClusterRole desiredRole 5000000000)
                    (roleHelper (roleClient (inl liveRole) (inl liveRole)
                                   (inl liveRole) (Some forbidden))))
             forbidden eq_refl) eq_refl).
Defined.

End clusterrole_spec.

(** ** Deprecated-field validators: errors, changes and updates *)

Module webhook_more.

Import webhook webhook_terms webhook_update_terms.

Section Update.

Variable Quote : string -> string.

Abbreviation Conflict := (ValidateDeprecatedFieldConflict Quote).
Abbreviation Change := (ValidateDeprecatedFieldChange Quote).
Abbreviation ChangePtr := (ValidateDeprecatedFieldChangePtr Quote).
Abbreviation Create := (ValidateDeprecatedFieldsCreate Quote).
Abbreviation Update := (ValidateDeprecatedFieldsUpdate Quote).

(** X1. [ValidateDeprecatedFieldConflict] returns an error exactly when
    both values are set and they differ or the flag forbids setting both;
    it returns a warning exactly when the deprecated value is set and the
    new one is empty or equal with the flag allowing it. It never returns
    both, and its error is of type Invalid, on the deprecated field's path,
    with the deprecated value as the bad value. *)
Theorem ValidateDeprecatedFieldConflict_error_iff
    (d n : string) (dp np : Path) (allow : bool) :
  ((Conflict d n dp np allow).2 <> None <->
     d <> "" /\ n <> "" /\ (d <> n \/ allow = false)) /\
  ((Conflict d n dp np allow).1 <> "" <->
     d <> "" /\ (n = "" \/ (d = n /\ allow = true))) /\
  ((Conflict d n dp np allow).1 = "" \/ (Conflict d n dp np allow).2 = None) /\
  (forall e, (Conflict d n dp np allow).2 = Some e ->
     Type_ e = ErrorTypeInvalid /\ Field e = Path_String dp /\ BadValue e = d).
Proof.
  unfold ValidateDeprecatedFieldConflict.
  repeat case_bool_decide; destruct allow; simpl;
    (split; [| split; [| split]]);
    try (intros e [= <-]; simpl);
    intuition (try congruence; try discriminate).
Qed.

(** X2. [ValidateDeprecatedFieldChangePtr], and with it
    [ValidateDeprecatedFieldChange], accepts a change exactly when the
    value is unchanged or cleared, a nil pointer counting as the empty
    string; any error is of type Forbidden on the deprecated field's
    path. *)
Theorem ValidateDeprecatedFieldChangePtr_nil_iff
    (old new : option string) (dp np : Path) :
  (ChangePtr old new dp np = None <->
     deref old = deref new \/ deref new = "") /\
  (forall e, ChangePtr old new dp np = Some e ->
     Type_ e = ErrorTypeForbidden /\ Field e = Path_String dp) /\
  ChangePtr old new dp np = Change (deref old) (deref new) dp np.
Proof.
  unfold ValidateDeprecatedFieldChangePtr, ValidateDeprecatedFieldChange.
  repeat case_bool_decide; simpl;
    (split; [| split; [| reflexivity]]);
    try (intros e [= <-]; simpl);
    intuition (try congruence; try discriminate).
Qed.

Lemma updateStep_app basePath acc df :
  updateStep Quote basePath acc df =
  (acc.1 ++ option_list (fieldWarning Quote basePath (asCreate df)),
   acc.2 ++ fieldErrors Quote basePath df).
Proof.
  destruct acc as [ws es].
  unfold updateStep, fieldWarning, fieldCheck, fieldErrors, asCreate. simpl.
  destruct (ValidateDeprecatedFieldConflictPtr _ _ _ _ _ _) as [w e]. simpl.
  f_equal.
  - case_bool_decide; simpl; [done | by rewrite app_nil_r].
  - destruct e, (ValidateDeprecatedFieldChangePtr _ _ _ _ _); simpl;
      by rewrite <- ?app_assoc, ?app_nil_r.
Qed.

Lemma update_foldl basePath fields : forall acc,
  foldl (updateStep Quote basePath) acc fields =
  (acc.1 ++ omap (fieldWarning Quote basePath) (asCreate <$> fields),
   acc.2 ++ concat (fieldErrors Quote basePath <$> fields)).
Proof.
  induction fields as [|df fields IH]; intros acc; simpl.
  - rewrite !app_nil_r. by destruct acc.
  - rewrite IH, updateStep_app. simpl. rewrite <- !app_assoc. f_equal.
    f_equal. by destruct (fieldWarning Quote basePath (asCreate df)).
Qed.

Lemma update_split fields basePath :
  Update fields basePath =
  (omap (fieldWarning Quote basePath) (asCreate <$> fields),
   concat (fieldErrors Quote basePath <$> fields)).
Proof. unfold ValidateDeprecatedFieldsUpdate. by rewrite update_foldl. Qed.

(** X3. The warnings of [ValidateDeprecatedFieldsUpdate] are the warnings
    [ValidateDeprecatedFieldsCreate] gives for the same mappings read with
    the new value of the deprecated field; the old value has no part in
    them. *)
Theorem ValidateDeprecatedFieldsUpdate_warnings_as_create
    (fields : list DeprecatedFieldUpdate) (basePath : Path) :
  (Update fields basePath).1 = Create (asCreate <$> fields) basePath.
Proof.
  rewrite update_split. simpl. symmetry.
  apply webhook_spec.create_omap.
Qed.

Lemma fieldErrors_nil_iff basePath df :
  fieldErrors Quote basePath df = [] <-> acceptedUpdate df.
Proof.
  unfold fieldErrors, acceptedUpdate, ValidateDeprecatedFieldConflictPtr,
    ValidateDeprecatedFieldChangePtr, ValidateDeprecatedFieldConflict,
    ValidateDeprecatedFieldChange.
  repeat case_bool_decide; simpl;
    intuition (try congruence; try discriminate).
Qed.

Lemma fieldErrors_length basePath df :
  length (fieldErrors Quote basePath df) <= 2.
Proof.
  unfold fieldErrors. rewrite length_app.
  destruct (ValidateDeprecatedFieldConflictPtr _ _ _ _ _ _).2,
           (ValidateDeprecatedFieldChangePtr _ _ _ _ _); simpl; lia.
Qed.

Lemma fieldWarning_cleared basePath df :
  deref (NewDeprecatedValue df) = "" ->
  fieldWarning Quote basePath (asCreate df) = None /\
  fieldErrors Quote basePath df = [].
Proof.
  intros Hd.
  unfold fieldWarning, fieldCheck, fieldErrors, asCreate,
    ValidateDeprecatedFieldConflictPtr, ValidateDeprecatedFieldChangePtr,
    ValidateDeprecatedFieldConflict, ValidateDeprecatedFieldChange.
  simpl. rewrite Hd.
  repeat case_bool_decide; simpl; try done.
Qed.

(** X4. [ValidateDeprecatedFieldsUpdate] returns no error exactly when
    every mapping is acceptable: the new value of the deprecated field and
    the new field do not hold two different non-empty values, and the
    deprecated field is unchanged or cleared. *)
Theorem ValidateDeprecatedFieldsUpdate_no_error_iff
    (fields : list DeprecatedFieldUpdate) (basePath : Path) :
  (Update fields basePath).2 = [] <-> Forall acceptedUpdate fields.
Proof.
  rewrite update_split. simpl.
  induction fields as [|df fields IH]; simpl.
  - split; [constructor | done].
  - split.
    + intros H. apply app_eq_nil in H as [Hdf Hrest]. constructor.
      * by apply (fieldErrors_nil_iff basePath df).
      * by apply IH.
    + intros H. apply Forall_cons in H as [Hdf Hrest].
      apply (fieldErrors_nil_iff basePath df) in Hdf. rewrite Hdf. simpl.
      by apply IH.
Qed.

(** X5. A mapping whose deprecated field is cleared by the update (nil or
    empty after the update) adds neither a warning nor an error, whatever
    its old value and its new field hold and wherever it stands in the
    list. *)
Theorem ValidateDeprecatedFieldsUpdate_cleared
    (df : DeprecatedFieldUpdate) (before after : list DeprecatedFieldUpdate)
    (basePath : Path) :
  deref (NewDeprecatedValue df) = "" ->
  Update (before ++ df :: after) basePath = Update (before ++ after) basePath.
Proof.
  intros Hd. destruct (fieldWarning_cleared basePath df Hd) as [Hw He].
  rewrite !update_split, !fmap_app, !omap_app, !concat_app. simpl.
  by rewrite Hw, He.
Qed.

(** X6. Bounds on what the two list validators return: a create gives at
    most one warning for each mapping, an update at most one warning and
    at most two errors for each mapping; on no mappings both give
    nothing. *)
Theorem validators_bounds
    (created : list DeprecatedField) (updated : list DeprecatedFieldUpdate)
    (basePath : Path) :
  length (Create created basePath) <= length created /\
  length (Update updated basePath).1 <= length updated /\
  length (Update updated basePath).2 <= 2 * length updated /\
  Create [] basePath = [] /\ Update [] basePath = ([], []).
Proof.
  rewrite update_split, webhook_spec.create_omap. simpl.
  assert (Homap : forall (A B : Type) (f : A -> option B) (l : list A),
            length (omap f l) <= length l).
  { intros A B f l. induction l as [|x l IH]; csimpl; [lia |].
    destruct (f x); csimpl; lia. }
  split; [apply Homap |].
  split; [etrans; [apply Homap | by rewrite length_fmap] |].
  split; [| done].
  induction updated as [|df updated IH]; [simpl; lia |].
  rewrite fmap_cons, concat_cons, length_app, length_cons.
  pose proof (fieldErrors_length basePath df). lia.
Qed.

End Update.

(** X5 at a migration that is complete: the deprecated field goes from a
    value to nil while the new field holds the value. *)
Lemma ValidateDeprecatedFieldsUpdate_cleared_witness :
  ValidateDeprecatedFieldsUpdate plainQuote
    [mkDeprecatedFieldUpdate "rabbitMqClusterName" ["messagingBus"; "cluster"]
       (Some "rabbitmq") None (Some "rabbitmq")]
    ["spec"]
  = ([], []).
Proof.
  exact (ValidateDeprecatedFieldsUpdate_cleared plainQuote
           (mkDeprecatedFieldUpdate "rabbitMqClusterName"
              ["messagingBus"; "cluster"] (Some "rabbitmq") None
              (Some "rabbitmq"))
           [] [] ["spec"] eq_refl).
Defined.

(** X1 at the values [a] and [b]: the error is of type Invalid, on the
    deprecated path, with [a] as the bad value. *)
Lemma ValidateDeprecatedFieldConflict_error_iff_witness :
  exists e,
    (ValidateDeprecatedFieldConflict plainQuote "a" "b" ["spec"; "old"]
       ["spec"; "new"] true).2 = Some e /\
    Type_ e = ErrorTypeInvalid /\ Field e = "spec.old" /\ BadValue e = "a".
Proof.
  pose proof (ValidateDeprecatedFieldConflict_error_iff plainQuote "a" "b"
                ["spec"; "old"] ["spec"; "new"] true) as (_ & _ & _ & H).
  eexists. split; [reflexivity |]. apply H. reflexivity.
Defined.

(** X2 at a deprecated field changed from [a] to [b]: a Forbidden error
    on the deprecated path. *)
Lemma ValidateDeprecatedFieldChangePtr_nil_iff_witness :
  exists e,
    ValidateDeprecatedFieldChangePtr plainQuote (Some "a") (Some "b")
      ["spec"; "old"] ["spec"; "new"] = Some e /\
    Type_ e = ErrorTypeForbidden /\ Field e = "spec.old".
Proof.
  pose proof (ValidateDeprecatedFieldChangePtr_nil_iff plainQuote
                (Some "a") (Some "b") ["spec"; "old"] ["spec"; "new"])
    as (_ & H & _).
  eexists. split; [reflexivity |]. apply H. reflexivity.
Defined.

End webhook_more.

(** ** Owner references and owner readiness: calls, errors, composition *)

Module object_more.

Import k8s helper object k8s_facts object_terms object_spec.

Lemma upsertOwnerRef_elem r l : r ∈ upsertOwnerRef r l.
Proof.
  unfold upsertOwnerRef. destruct (indexOwnerRef l r) as [i |] eqn:Hi.
  - apply indexOwnerRef_Some in Hi as (e & He & _).
    apply list_elem_of_lookup. exists i.
    apply list_lookup_insert_eq. by eapply lookup_lt_Some.
  - apply elem_of_app. right. by left.
Qed.

Lemma upsertOwnerRef_length r l :
  length l <= length (upsertOwnerRef r l) <= S (length l).
Proof.
  unfold upsertOwnerRef. destruct (indexOwnerRef l r).
  - rewrite length_insert. lia.
  - rewrite length_app. simpl. lia.
Qed.

Lemma upsertOwnerRef_others r l i e :
  l !! i = Some e -> referSameObject e r = false ->
  upsertOwnerRef r l !! i = Some e.
Proof.
  intros He Hne. unfold upsertOwnerRef.
  destruct (indexOwnerRef l r) as [k |] eqn:Hk.
  - apply indexOwnerRef_Some in Hk as (e' & He' & Hsame & _).
    rewrite list_lookup_insert_ne; [done |]. intros ->. congruence.
  - by apply lookup_app_l_Some.
Qed.

Lemma find_isController_Some obj ownerRef :
  find isController (OwnerReferences (Meta obj)) = Some ownerRef ->
  controllerOwner obj ownerRef.
Proof.
  unfold controllerOwner. generalize (OwnerReferences (Meta obj)) as refs.
  induction refs as [|r refs IH]; simpl; [done |].
  destruct (isController r) eqn:E.
  - intros [= <-]. exists [], refs. repeat split; [constructor |].
    by apply isController_true.
  - intros H. destruct (IH H) as (pre & post & -> & Hpre & Hc).
    exists (r :: pre), post. repeat split; [| done].
    constructor; [| done]. intros Hr. apply isController_true in Hr.
    congruence.
Qed.

Lemma SetOwnerReference_error_not_conflict owner object scheme err :
  SetOwnerReference owner object scheme = inr err -> IsConflict err = false.
Proof.
  unfold SetOwnerReference, validateOwner, GVKForObject.
  repeat case_bool_decide; try (by intros [= <-]);
    destruct (scheme (GoType owner)); by intros [= <-].
Qed.

(** X7. After [EnsureOwnerRef], for an owner that may own the target and
    whose type is registered, [CheckOwnerRefExist] finds the owner's UID
    on the target, whatever the client answered to the patch. *)
Theorem EnsureOwnerRef_then_CheckOwnerRefExist
    (h : Helper) (owner object : Object) (gvk : GroupVersionKind) :
  validateOwner (Meta owner) (Meta object) = None ->
  GetScheme h (GoType owner) = Some gvk ->
  CheckOwnerRefExist (m_UID (Meta owner))
    (OwnerReferences (Meta (result (EnsureOwnerRef h owner object)).2)) = true.
Proof.
  intros Hv Hs.
  rewrite EnsureOwnerRef_object, (SetOwnerReference_ok _ _ _ gvk Hv Hs).
  unfold CheckOwnerRefExist, IndexFunc.
  rewrite bool_decide_eq_true_2; [done |].
  apply IndexFunc_from_found; [lia |].
  exists (ownerRefOf gvk (Meta owner)). split.
  - destruct object as [t [n ns u lb an refs]]. simpl.
    apply upsertOwnerRef_elem.
  - by apply bool_decide_eq_true.
Qed.

(** X8. When the owner is in a namespace and the target is not in that
    namespace (another one, or none), or when the owner's type is not
    registered in the scheme, [PatchOwnerRef] fails and [EnsureOwnerRef]
    returns that very error, makes no call on the client and leaves the
    target as it was. *)
Theorem EnsureOwnerRef_setup_error (h : Helper) (owner object : Object) :
  (m_Namespace (Meta owner) <> "" /\
   m_Namespace (Meta owner) <> m_Namespace (Meta object)) \/
  GetScheme h (GoType owner) = None ->
  exists err,
    PatchOwnerRef owner object (GetScheme h) = inr err /\
    EnsureOwnerRef h owner object = ((Some err, object), []).
Proof.
  intros Hcase. unfold EnsureOwnerRef, PatchOwnerRef, SetOwnerReference,
    validateOwner, GVKForObject.
  destruct Hcase as [[Hns Hdiff] | Hs].
  - rewrite (bool_decide_eq_true_2 _ Hns).
    case_bool_decide; [by eexists |].
    rewrite (bool_decide_eq_true_2 _ Hdiff). by eexists.
  - rewrite Hs. repeat case_bool_decide; by eexists.
Qed.

(** X9. [EnsureOwnerRef] sends a patch exactly when setting the owner
    reference changes the target's list: then it makes the one call, a
    patch of the changed target against the snapshot taken before; when
    the list is unchanged it makes no call and returns nil. *)
Theorem EnsureOwnerRef_patch_iff_changed
    (h : Helper) (owner object : Object) (gvk : GroupVersionKind) :
  validateOwner (Meta owner) (Meta object) = None ->
  GetScheme h (GoType owner) = Some gvk ->
  let refs := OwnerReferences (Meta object) in
  let refs' := upsertOwnerRef (ownerRefOf gvk (Meta owner)) refs in
  (refs' = refs ->
     EnsureOwnerRef h owner object = ((None, object), [])) /\
  (refs' <> refs ->
     calls (EnsureOwnerRef h owner object)
       = [CallPatchObject (with_OwnerReferences object refs') object]).
Proof.
  intros Hv Hs refs refs'.
  unfold EnsureOwnerRef, PatchOwnerRef.
  rewrite (SetOwnerReference_ok _ _ _ gvk Hv Hs). fold refs refs'.
  split.
  - intros ->. unfold refs.
    by rewrite with_OwnerReferences_same, mergePatchData_same.
  - intros Hne.
    destruct (mergePatchData_ownerReferences object
                (with_OwnerReferences object refs')) as [v Hmeta].
    { destruct object as [t [n ns u lb an l]]. simpl in *.
      intros Heq. apply Hne. by subst refs. }
    rewrite Hmeta, calls_bind. simpl.
    destruct (PatchObject _ _ _) as [e |]; [| done].
    destruct (IsConflict e); [done |]. by destruct (IsNotFound e).
Qed.

(** X10. [EnsureOwnerRef] only adds or rewrites the entry that names the
    owner: every entry that names another object stays at its index, the
    list grows by at most one entry and holds the owner's reference; and
    the target's type, name, namespace, UID, labels and annotations are
    not touched. *)
Theorem EnsureOwnerRef_keeps_other_owners
    (h : Helper) (owner object : Object) (gvk : GroupVersionKind) :
  validateOwner (Meta owner) (Meta object) = None ->
  GetScheme h (GoType owner) = Some gvk ->
  let r := ownerRefOf gvk (Meta owner) in
  let object' := (result (EnsureOwnerRef h owner object)).2 in
  (forall i e,
     OwnerReferences (Meta object) !! i = Some e ->
     referSameObject e r = false ->
     OwnerReferences (Meta object') !! i = Some e) /\
  r ∈ OwnerReferences (Meta object') /\
  length (OwnerReferences (Meta object))
    <= length (OwnerReferences (Meta object'))
    <= S (length (OwnerReferences (Meta object))) /\
  set_OwnerReferences (Meta object') [] = set_OwnerReferences (Meta object) [] /\
  GoType object' = GoType object.
Proof.
  intros Hv Hs r object'. subst object'.
  rewrite EnsureOwnerRef_object, (SetOwnerReference_ok _ _ _ gvk Hv Hs).
  fold r. destruct object as [t [n ns u lb an refs]]. simpl.
  split; [intros i e; apply upsertOwnerRef_others |].
  split; [apply upsertOwnerRef_elem |].
  split; [apply upsertOwnerRef_length | done].
Qed.

(** X11. [EnsureOwnerRef] returns an error classified as a conflict only
    when it sent a patch and the client answered that patch with a
    conflict. *)
Theorem EnsureOwnerRef_conflict_only_from_client
    (h : Helper) (owner object : Object) :
  IsConflict_opt (result (EnsureOwnerRef h owner object)).1 = true ->
  exists object' e,
    calls (EnsureOwnerRef h owner object) = [CallPatchObject object' object] /\
    PatchObject (GetClient h) object' object = Some e /\
    IsConflict e = true.
Proof.
  unfold EnsureOwnerRef, PatchOwnerRef.
  destruct (SetOwnerReference owner object (GetScheme h)) as [o' | err] eqn:Hset.
  - destruct (mergePatchData object o' !! "metadata"); [| done].
    rewrite result_bind, calls_bind, result_call. simpl.
    destruct (PatchObject (GetClient h) o' object) as [e |] eqn:Hp; [| done].
    destruct (IsConflict e) eqn:Hc.
    + intros _. by exists o', e.
    + destruct (IsNotFound e); simpl; [done |].
      rewrite IsConflict_wrapError, Hc. done.
  - simpl. by rewrite (SetOwnerReference_error_not_conflict _ _ _ _ Hset).
Qed.

(** X7 at a Deployment added to a ConfigMap while the client fails the
    patch with a server error. *)
Lemma EnsureOwnerRef_then_CheckOwnerRefExist_witness :
  CheckOwnerRefExist (m_UID (Meta deployment))
    (OwnerReferences (Meta (result
       (EnsureOwnerRef (stubHelper (inr notFound) (Some serverError))
          deployment (configMap "child" "uid-2" [otherRef]))).2)) = true.
Proof.
  exact (EnsureOwnerRef_then_CheckOwnerRefExist
           (stubHelper (inr notFound) (Some serverError)) deployment
           (configMap "child" "uid-2" [otherRef])
           (mkGVK "apps" "v1" "Deployment") eq_refl eq_refl).
Defined.

(** X8 at a target in another namespace than its owner. *)
Lemma EnsureOwnerRef_setup_error_witness :
  exists err,
    PatchOwnerRef deployment
      (mkObject "ConfigMap" (mkObjectMeta "child" "elsewhere" "uid-2" ∅ ∅ []))
      (GetScheme (stubHelper (inr notFound) None)) = inr err /\
    EnsureOwnerRef (stubHelper (inr notFound) None) deployment
      (mkObject "ConfigMap" (mkObjectMeta "child" "elsewhere" "uid-2" ∅ ∅ []))
    = ((Some err,
        mkObject "ConfigMap" (mkObjectMeta "child" "elsewhere" "uid-2" ∅ ∅ [])),
       []).
Proof.
  apply (EnsureOwnerRef_setup_error (stubHelper (inr notFound) None)
           deployment
           (mkObject "ConfigMap"
              (mkObjectMeta "child" "elsewhere" "uid-2" ∅ ∅ []))).
  left. split; discriminate.
Defined.

(** X9 at a ConfigMap without the Deployment (one patch) and at the same
    ConfigMap with it (no call). *)
Lemma EnsureOwnerRef_patch_iff_changed_witness :
  calls (EnsureOwnerRef (stubHelper (inr notFound) None) deployment
           (configMap "child" "uid-2" [otherRef]))
    = [CallPatchObject (configMap "child" "uid-2" [otherRef; plainRef])
         (configMap "child" "uid-2" [otherRef])] /\
  EnsureOwnerRef (stubHelper (inr notFound) None) deployment
    (configMap "child" "uid-2" [otherRef; plainRef])
    = ((None, configMap "child" "uid-2" [otherRef; plainRef]), []).
Proof.
  split.
  - apply (EnsureOwnerRef_patch_iff_changed
             (stubHelper (inr notFound) None) deployment
             (configMap "child" "uid-2" [otherRef])
             (mkGVK "apps" "v1" "Deployment") eq_refl eq_refl).
    discriminate.
  - apply (EnsureOwnerRef_patch_iff_changed
             (stubHelper (inr notFound) None) deployment
             (configMap "child" "uid-2" [otherRef; plainRef])
             (mkGVK "apps" "v1" "Deployment") eq_refl eq_refl).
    reflexivity.
Defined.

(** X10 at a ConfigMap that holds another owner: that entry stays first. *)
Lemma EnsureOwnerRef_keeps_other_owners_witness :
  OwnerReferences (Meta (result
     (EnsureOwnerRef (stubHelper (inr notFound) (Some conflict)) deployment
        (configMap "child" "uid-2" [otherRef]))).2) !! 0 = Some otherRef.
Proof.
  apply (EnsureOwnerRef_keeps_other_owners
           (stubHelper (inr notFound) (Some conflict)) deployment
           (configMap "child" "uid-2" [otherRef])
           (mkGVK "apps" "v1" "Deployment") eq_refl eq_refl);
    reflexivity.
Defined.

(** X11 at a patch the client answers with a conflict. *)
Lemma EnsureOwnerRef_conflict_only_from_client_witness :
  exists object' e,
    calls (EnsureOwnerRef (stubHelper (inr notFound) (Some conflict))
             deployment (configMap "child" "uid-2" [otherRef]))
      = [CallPatchObject object' (configMap "child" "uid-2" [otherRef])] /\
    PatchObject (GetClient (stubHelper (inr notFound) (Some conflict)))
      object' (configMap "child" "uid-2" [otherRef]) = Some e /\
    IsConflict e = true.
Proof.
  apply (EnsureOwnerRef_conflict_only_from_client
           (stubHelper (inr notFound) (Some conflict)) deployment
           (configMap "child" "uid-2" [otherRef])).
  vm_compute. reflexivity.
Defined.

(** X12. [IsOwnerServiceReady] makes at most one call on the client, and
    never a write: either no call, or one get of the controller owner, by
    the group and version parsed from its apiVersion and its kind, under
    the owner reference's name in the namespace of the object itself. *)
Theorem IsOwnerServiceReady_calls (h : Helper) (obj : Object) :
  calls (IsOwnerServiceReady h obj) = [] \/
  exists ownerRef gv,
    controllerOwner obj ownerRef /\
    ParseGroupVersion (APIVersion ownerRef) = inl gv /\
    calls (IsOwnerServiceReady h obj)
      = [CallGetUnstructured
           (mkGVK (Group gv) (Version gv) (Kind ownerRef))
           (mkNamespacedName (m_Namespace (Meta obj)) (Name ownerRef))].
Proof.
  unfold IsOwnerServiceReady.
  destruct (find isController (OwnerReferences (Meta obj)))
    as [ownerRef |] eqn:Hfind; [| by left].
  destruct (ParseGroupVersion (APIVersion ownerRef)) as [gv | err] eqn:Hp;
    [| by left].
  right. exists ownerRef, gv.
  split; [by apply find_isController_Some |]. split; [done |].
  rewrite calls_bind. simpl.
  destruct (GetUnstructured _ _ _) as [owner | err]; simpl; [done |].
  by destruct (IsNotFound err).
Qed.

(** X13. [IsOwnerServiceReady] never reports ready together with an
    error: when the error is not nil the boolean is false, and the error
    is either the parse error of the controller owner's apiVersion or the
    client's answer to the get, which then is not a not-found. *)
Theorem IsOwnerServiceReady_error_not_ready
    (h : Helper) (obj : Object) (ready : bool) (err : error) :
  result (IsOwnerServiceReady h obj) = (ready, Some err) ->
  ready = false /\
  exists ownerRef,
    controllerOwner obj ownerRef /\
    (ParseGroupVersion (APIVersion ownerRef) = inr err \/
     exists gv,
       ParseGroupVersion (APIVersion ownerRef) = inl gv /\
       GetUnstructured (GetClient h)
         (mkGVK (Group gv) (Version gv) (Kind ownerRef))
         (mkNamespacedName (m_Namespace (Meta obj)) (Name ownerRef))
         = inr err /\
       IsNotFound err = false).
Proof.
  unfold IsOwnerServiceReady.
  destruct (find isController (OwnerReferences (Meta obj)))
    as [ownerRef |] eqn:Hfind; [| done].
  apply find_isController_Some in Hfind.
  destruct (ParseGroupVersion (APIVersion ownerRef)) as [gv | e] eqn:Hp.
  - rewrite result_bind, result_call.
    destruct (GetUnstructured _ _ _) as [owner | e] eqn:Hget.
    + rewrite result_ret, ownerStatusReady_read.
      by destruct (readConditions owner),
                  (readInt64 owner "metadata" "generation"),
                  (readInt64 owner "status" "observedGeneration").
    + destruct (IsNotFound e) eqn:Hnf; [done |].
      intros [= <- <-]. split; [done |]. exists ownerRef.
      split; [done |]. right. by exists gv.
  - intros [= <- <-]. split; [done |]. exists ownerRef.
    split; [done |]. by left.
Qed.

(** X14. Only the first owner reference with the controller flag counts:
    the references before it and after it, controllers or not, change
    neither the result nor the call. *)
Theorem IsOwnerServiceReady_first_controller_only
    (h : Helper) (obj : Object) (ownerRef : OwnerReference) :
  controllerOwner obj ownerRef ->
  IsOwnerServiceReady h obj
  = IsOwnerServiceReady h (with_OwnerReferences obj [ownerRef]).
Proof.
  intros (pre & post & Hrefs & Hpre & Hc).
  unfold IsOwnerServiceReady. rewrite Hrefs.
  rewrite (find_isController_first pre ownerRef post Hpre Hc).
  destruct obj as [t [n ns u lb an refs]]. simpl.
  by rewrite (proj2 (isController_true ownerRef) Hc).
Qed.

(** X15. For a fetched owner the result is [(true, nil)] exactly when the
    conditions hold an entry with type "Ready" and status "True" and the
    two generations are integers and equal; and the error is nil in every
    case. *)
Theorem IsOwnerServiceReady_true_iff
    (h : Helper) (obj : Object) (owner : gmap string JSON) :
  fetchesOwner h obj owner ->
  (result (IsOwnerServiceReady h obj) = (true, None) <->
     hasReadyTrue owner /\
     exists g, readInt64 owner "metadata" "generation" = Some g /\
               readInt64 owner "status" "observedGeneration" = Some g) /\
  (result (IsOwnerServiceReady h obj)).2 = None.
Proof.
  intros Hfetch.
  rewrite (IsOwnerServiceReady_fetched h obj owner Hfetch).
  rewrite ownerStatusReady_read. unfold hasReadyTrue.
  destruct (readConditions owner) as [conds |] eqn:Hconds.
  2:{ split; [| done]. split; [done |]. by intros [(? & ? & ? & _) _]. }
  destruct (readInt64 owner "metadata" "generation") as [g |].
  2:{ split; [| done]. split; [done |]. by intros [_ (? & ? & _)]. }
  destruct (readInt64 owner "status" "observedGeneration") as [o |].
  2:{ split; [| done]. split; [done |]. by intros [_ (? & _ & ?)]. }
  split; [| done]. split.
  - intros [= Hand]. apply andb_true_iff in Hand as [Hloop Heq].
    apply bool_decide_eq_true in Heq as ->.
    apply isReadyLoop_iff in Hloop as (c & Hc & Hr).
    split; [by exists conds, c | by exists g].
  - intros [(conds' & c & [= <-] & Hc & Hr) (g' & [= <-] & [= <-])].
    rewrite (proj2 (isReadyLoop_iff conds)) by (by exists c).
    by rewrite bool_decide_eq_true_2.
Qed.

(** X16. The order of the conditions does not matter: two owner documents
    whose condition lists are permutations of each other, with the same
    generations, get the same verdict. *)
Theorem ownerStatusReady_order_independent
    (owner1 owner2 : gmap string JSON) (conds1 conds2 : list JSON) :
  readConditions owner1 = Some conds1 ->
  readConditions owner2 = Some conds2 ->
  conds1 ≡ₚ conds2 ->
  readInt64 owner1 "metadata" "generation"
    = readInt64 owner2 "metadata" "generation" ->
  readInt64 owner1 "status" "observedGeneration"
    = readInt64 owner2 "status" "observedGeneration" ->
  ownerStatusReady owner1 = ownerStatusReady owner2.
Proof.
  intros H1 H2 Hperm Hg Ho.
  rewrite !ownerStatusReady_read, H1, H2, Hg, Ho.
  assert (isReadyLoop conds1 = isReadyLoop conds2) as ->; [| done].
  apply eq_true_iff_eq. rewrite !isReadyLoop_iff.
  split; intros (c & Hc & Hr); exists c; split; try done.
  - by rewrite <- Hperm.
  - by rewrite Hperm.
Qed.

(** X13 at a controller owner whose apiVersion is [a/b/c]. *)
Lemma IsOwnerServiceReady_error_not_ready_witness :
  false = false /\
  exists ownerRef,
    controllerOwner (child "a/b/c") ownerRef /\
    (ParseGroupVersion (APIVersion ownerRef)
       = inr (errorString "unexpected GroupVersion string: a/b/c") \/
     exists gv,
       ParseGroupVersion (APIVersion ownerRef) = inl gv /\
       GetUnstructured (GetClient (stubHelper (inr notFound) None))
         (mkGVK (Group gv) (Version gv) (Kind ownerRef))
         (mkNamespacedName (m_Namespace (Meta (child "a/b/c")))
            (Name ownerRef))
         = inr (errorString "unexpected GroupVersion string: a/b/c") /\
       IsNotFound (errorString "unexpected GroupVersion string: a/b/c")
         = false).
Proof.
  apply (IsOwnerServiceReady_error_not_ready
           (stubHelper (inr notFound) None) (child "a/b/c") false
           (errorString "unexpected GroupVersion string: a/b/c")).
  vm_compute. reflexivity.
Defined.

(** X14 at a ConfigMap whose controller owner comes second. *)
Lemma IsOwnerServiceReady_first_controller_only_witness :
  IsOwnerServiceReady (stubHelper (inl (ownerDoc "True" 2 2)) None)
    (child "apps/v1")
  = IsOwnerServiceReady (stubHelper (inl (ownerDoc "True" 2 2)) None)
      (with_OwnerReferences (child "apps/v1") [controllerRef "apps/v1"]).
Proof.
  apply (IsOwnerServiceReady_first_controller_only
           (stubHelper (inl (ownerDoc "True" 2 2)) None) (child "apps/v1")
           (controllerRef "apps/v1")).
  exists [otherRef], []. split; [reflexivity |]. split; [| reflexivity].
  constructor; [discriminate | constructor].
Defined.

(** X15 at a Deployment that is Ready and has observed generation 2 of 2. *)
Lemma IsOwnerServiceReady_true_iff_witness :
  result (IsOwnerServiceReady (stubHelper (inl (ownerDoc "True" 2 2)) None)
            (child "apps/v1")) = (true, None).
Proof.
  apply (proj1 (IsOwnerServiceReady_true_iff
                  (stubHelper (inl (ownerDoc "True" 2 2)) None)
                  (child "apps/v1") (ownerDoc "True" 2 2)
                  (child_fetchesOwner _ _))).
  split; [apply ownerDoc_hasReadyTrue |].
  exists 2%Z. split; reflexivity.
Defined.

(** X16 at two documents that list the conditions Available and Ready in
    the two orders. *)
Lemma ownerStatusReady_order_independent_witness :
  ownerStatusReady
    {[ "status" := JMap {[ "conditions" := JSlice
         [JMap {[ "type" := JString "Available"; "status" := JString "True" ]};
          JMap {[ "type" := JString "Ready"; "status" := JString "True" ]}] ]} ]}
  = ownerStatusReady
      {[ "status" := JMap {[ "conditions" := JSlice
           [JMap {[ "type" := JString "Ready"; "status" := JString "True" ]};
            JMap {[ "type" := JString "Available";
                    "status" := JString "True" ]}] ]} ]}.
Proof.
  apply (ownerStatusReady_order_independent _ _
           [JMap {[ "type" := JString "Available"; "status" := JString "True" ]};
            JMap {[ "type" := JString "Ready"; "status" := JString "True" ]}]
           [JMap {[ "type" := JString "Ready"; "status" := JString "True" ]};
            JMap {[ "type" := JString "Available";
                    "status" := JString "True" ]}]);
    try reflexivity.
  apply perm_swap.
Defined.

End object_more.

(** ** ClusterRole reconciliation: results, calls and convergence *)

Module clusterrole_more.

Import k8s helper clusterrole k8s_facts clusterrole_terms
  clusterrole_more_terms.

Lemma mutateFn_meta r h live :
  let mutated := (mutateFn r h live).1 in
  m_Name (ObjectMeta_ mutated) = m_Name (ObjectMeta_ live) /\
  m_Namespace (ObjectMeta_ mutated) = m_Namespace (ObjectMeta_ live) /\
  m_UID (ObjectMeta_ mutated) = m_UID (ObjectMeta_ live).
Proof.
  simpl. unfold mutateFn. by destruct (SetControllerReference _ _ _).
Qed.

(** X17. The closure of [CreateOrPatch] never changes the name, the
    namespace or the UID of the live object. So the check of
    [controllerutil] against the object key depends on the live object
    alone: when the live object has the key the check is made with, the
    closure under the check gives what it gives on its own; when the live
    object has another key and the closure succeeds, the check fails with
    its own error. *)
Theorem mutateFn_keeps_key (r : ClusterRole) (h : Helper)
    (live : k8s.ClusterRole) (key : NamespacedName) :
  ObjectKeyFromObject (ObjectMeta_ (mutateFn r h live).1)
    = ObjectKeyFromObject (ObjectMeta_ live) /\
  m_UID (ObjectMeta_ (mutateFn r h live).1) = m_UID (ObjectMeta_ live) /\
  (ObjectKeyFromObject (ObjectMeta_ live) = key ->
     mutate (mutateFn r h) key live = mutateFn r h live) /\
  (ObjectKeyFromObject (ObjectMeta_ live) <> key ->
     (mutateFn r h live).2 = None ->
     (mutate (mutateFn r h) key live).2
       = Some (errorString
           "MutateFn cannot mutate object name and/or object namespace")).
Proof.
  destruct (mutateFn_meta r h live) as (Hn & Hns & Hu).
  assert (Hkey : ObjectKeyFromObject (ObjectMeta_ (mutateFn r h live).1)
                 = ObjectKeyFromObject (ObjectMeta_ live))
    by (unfold ObjectKeyFromObject; by rewrite Hn, Hns).
  split; [done |]. split; [done |].
  unfold mutate. destruct (mutateFn r h live) as [obj' [e |]];
    simpl in *.
  - split; [done |]. by intros _ [=].
  - rewrite Hkey. split.
    + intros <-. by rewrite bool_decide_eq_false_2 by (by intros H).
    + intros Hne _. by rewrite bool_decide_eq_true_2 by (by intros H).
Qed.

(** X17 at the live ClusterRole [reader] of the namespace [openstack]:
    checked against its own key the closure passes, checked against the
    key of a cluster-scoped object of that name the check fails. *)
Lemma mutateFn_keeps_key_witness :
  mutate (mutateFn (NewClusterRole desiredRole 5000000000)
            (roleHelper (roleClient (inl liveRole) (inl liveRole)
                           (inl liveRole) None)))
    (mkNamespacedName "openstack" "reader") liveRole
  = mutateFn (NewClusterRole desiredRole 5000000000)
      (roleHelper (roleClient (inl liveRole) (inl liveRole)
                     (inl liveRole) None)) liveRole /\
  (mutate (mutateFn (NewClusterRole desiredRole 5000000000)
             (roleHelper (roleClient (inl liveRole) (inl liveRole)
                            (inl liveRole) None)))
     (mkNamespacedName "" "reader") liveRole).2
  = Some (errorString
      "MutateFn cannot mutate object name and/or object namespace").
Proof.
  split.
  - apply (mutateFn_keeps_key (NewClusterRole desiredRole 5000000000)
             (roleHelper (roleClient (inl liveRole) (inl liveRole)
                            (inl liveRole) None))
             liveRole (mkNamespacedName "openstack" "reader")).
    reflexivity.
  - apply (mutateFn_keeps_key (NewClusterRole desiredRole 5000000000)
             (roleHelper (roleClient (inl liveRole) (inl liveRole)
                            (inl liveRole) None))
             liveRole (mkNamespacedName "" "reader")).
    + discriminate.
    + vm_compute. reflexivity.
Defined.

(** X18. The result of [CreateOrPatch] never sets [Requeue]; its
    [RequeueAfter] is zero or the configured timeout; an error comes with
    the zero result, and exactly when the transaction ended with an error
    that is not a not-found. *)
Theorem CreateOrPatch_result_shape (r : ClusterRole) (h : Helper) :
  let tx := result (k8s.CreateOrPatch (GetClient h) (newObject r)
                      (mutateFn r h)) in
  let res := (result (CreateOrPatch r h)).1 in
  let err := (result (CreateOrPatch r h)).2 in
  Requeue res = false /\
  (RequeueAfter res = 0%Z \/ RequeueAfter res = timeout r) /\
  (err <> None -> res = mkResult false 0) /\
  (err <> None <-> exists e, tx.1.2 = Some e /\ IsNotFound e = false) /\
  (tx.1.2 = None -> result (CreateOrPatch r h) = (mkResult false 0, None)).
Proof.
  simpl. unfold CreateOrPatch. rewrite result_bind.
  destruct (result (k8s.CreateOrPatch _ _ _)) as [[op [e |]] kept]; simpl.
  - destruct (IsNotFound e) eqn:Hnf; simpl.
    + repeat split; try done; try (by right).
      intros (e' & [= <-] & He'). congruence.
    + repeat split; try done; try (by left). intros _. by exists e.
  - repeat split; try done; try (by left). by intros (e' & ? & _).
Qed.

(** X19. [Delete] makes exactly one call, the delete of the desired
    ClusterRole. It returns nil exactly when the client answered nil or a
    not-found; an error it returns wraps the client's error, so that the
    reason and the code of the API status are still found in it. *)
Theorem Delete_nil_iff (r : ClusterRole) (h : Helper) :
  let answer := DeleteClusterRole (GetClient h) (clusterrole r) in
  calls (Delete r h) = [CallDeleteClusterRole (clusterrole r)] /\
  (result (Delete r h) = None <->
     answer = None \/ IsNotFound_opt answer = true) /\
  (forall e', result (Delete r h) = Some e' ->
     exists e, answer = Some e /\ IsNotFound e = false /\
       reasonAndCodeForError e' = reasonAndCodeForError e).
Proof.
  simpl. unfold Delete. rewrite calls_bind, result_bind, result_call. simpl.
  destruct (DeleteClusterRole (GetClient h) (clusterrole r)) as [e |]; simpl.
  - destruct (IsNotFound e) eqn:Hnf; simpl.
    + repeat split; try done. intros _. by right.
    + repeat split; try done.
      * intros [? | ?]; done.
      * intros e' [= <-]. by exists e.
  - repeat split; try done. intros _. by left.
Qed.

(** X20. [CreateOrPatch] looks the ClusterRole up by the desired name and
    namespace and then writes at most once: its calls are that get,
    followed by nothing, by one create or by one patch of an object of the
    same name and namespace. It never deletes. *)
Theorem CreateOrPatch_calls (r : ClusterRole) (h : Helper) :
  let key := ObjectKeyFromObject (ObjectMeta_ (clusterrole r)) in
  exists rest,
    calls (CreateOrPatch r h) = CallGetClusterRole key :: rest /\
    (rest = [] \/
     (exists obj, rest = [CallCreateClusterRole obj] /\
                  ObjectKeyFromObject (ObjectMeta_ obj) = key) \/
     (exists obj before, rest = [CallPatchClusterRole obj before] /\
                         ObjectKeyFromObject (ObjectMeta_ obj) = key)).
Proof.
  simpl. unfold CreateOrPatch. rewrite calls_bind.
  assert (Htail : forall m : Traced (OperationResult * option error *
                                      k8s.ClusterRole),
            calls (let '(op, err, kept) := result m in
                   match err with
                   | Some err =>
                       if IsNotFound err
                       then mret (mkResult false (timeout r), None)
                       else mret (mkResult false 0,
                                  Some (util.WrapErrorForObject
                                          ("Error creating clusterrole " +:+
                                           m_Name (ObjectMeta_ kept))
                                          (ObjectMeta_ kept) err))
                   | None => mret (mkResult false 0, None)
                   end : Traced (Result * option error)) = []).
  { intros m. destruct (result m) as [[op [e |]] kept]; [| done].
    by destruct (IsNotFound e). }
  rewrite Htail, app_nil_r. clear Htail.
  unfold k8s.CreateOrPatch. rewrite calls_bind, result_call.
  change (ObjectKeyFromObject (ObjectMeta_ (newObject r)))
    with (ObjectKeyFromObject (ObjectMeta_ (clusterrole r))).
  set (key := ObjectKeyFromObject (ObjectMeta_ (clusterrole r))).
  assert (Hkey : forall obj obj',
            mutate (mutateFn r h) key obj = (obj', None) ->
            ObjectKeyFromObject (ObjectMeta_ obj') = key).
  { intros obj obj' Hm. unfold mutate in Hm.
    destruct (mutateFn r h obj) as [o [e |]]; [done |].
    case_bool_decide as Hk; [done |]. injection Hm as <-.
    by destruct (decide (key = ObjectKeyFromObject (ObjectMeta_ o))). }
  eexists. split; [reflexivity |].
  destruct (GetClusterRole (GetClient h) key) as [live | err].
  - destruct (mutate (mutateFn r h) key live) as [obj' [e |]] eqn:Hm;
      [by left |].
    case_bool_decide as Hchanged; [| by left].
    right. right. exists obj', live.
    split; [| by apply (Hkey live)].
    unfold calls, call, mbind, Traced_bind. simpl.
    by destruct (PatchClusterRole _ _ _).
  - destruct (IsNotFound err); simpl; [| by left].
    destruct (mutate (mutateFn r h) key (newObject r)) as [obj' [e |]] eqn:Hm;
      [by left |].
    right. left. exists obj'.
    split; [| by apply (Hkey (newObject r))].
    unfold calls, call, mbind, Traced_bind. simpl.
    by destruct (CreateClusterRole _ _).
Qed.

Lemma find_isController_split refs ex :
  find isController refs = Some ex ->
  exists pre post, refs = pre ++ ex :: post /\
    Forall (fun r => isController r = false) pre /\ isController ex = true.
Proof.
  induction refs as [|r refs IH]; simpl; [done |].
  destruct (isController r) eqn:E.
  - intros [= <-]. by exists [], refs.
  - intros H. destruct (IH H) as (pre & post & -> & Hpre & Hex).
    exists (r :: pre), post. repeat split; [| done]. by constructor.
Qed.

Lemma find_isController_app pre ref post :
  Forall (fun r => isController r = false) pre ->
  isController ref = true ->
  find isController (pre ++ ref :: post) = Some ref.
Proof.
  intros Hpre Hc. induction Hpre as [| r pre Hr _ IH]; simpl.
  - by rewrite Hc.
  - by rewrite Hr.
Qed.

(** After a controller reference is upserted it is the controller of the
    list, provided the list had no controller or one that names the same
    object. *)
Lemma GetControllerOf_upsert refs ref :
  isController ref = true ->
  referSameObject ref ref = true ->
  match GetControllerOf refs with
  | Some ex => referSameObject ex ref = true
  | None => True
  end ->
  GetControllerOf (upsertOwnerRef ref refs) = Some ref.
Proof.
  intros Hc Hrefl Hex. unfold GetControllerOf in *. unfold upsertOwnerRef.
  destruct (indexOwnerRef refs ref) as [i |] eqn:Hi.
  - apply indexOwnerRef_Some in Hi as (e & He & Hsame & Hmin).
    assert (Hlt : i < length refs) by (by eapply lookup_lt_Some).
    rewrite insert_take_drop by done.
    apply find_isController_app; [| done].
    destruct (find isController refs) as [ex |] eqn:Hfind.
    + apply find_isController_split in Hfind
        as (pre & post & -> & Hpre & _).
      assert (i <= length pre).
      { destruct (decide (i <= length pre)) as [| Hgt]; [done |].
        specialize (Hmin (length pre) ex ltac:(lia)).
        rewrite lookup_app_r, Nat.sub_diag in Hmin by lia.
        specialize (Hmin eq_refl). congruence. }
      rewrite take_app_le by done. by apply Forall_take.
    + apply Forall_take. apply Forall_forall. intros x Hx.
      apply list_elem_of_In in Hx.
      by apply (find_none _ _ Hfind).
  - apply indexOwnerRef_None in Hi.
    destruct (find isController refs) as [ex |] eqn:Hfind.
    + apply find_some in Hfind as [Hin _].
      apply list_elem_of_In in Hin.
      rewrite Forall_forall in Hi. specialize (Hi ex Hin). congruence.
    + apply find_isController_app; [| done].
      apply Forall_forall. intros x Hx. apply list_elem_of_In in Hx.
      by apply (find_none _ _ Hfind).
Qed.

Lemma SetControllerReference_inv owner m scheme refs1 :
  SetControllerReference owner m scheme = inl refs1 ->
  validateOwner (Meta owner) m = None /\
  exists gvk,
    scheme (GoType owner) = Some gvk /\
    refs1 = upsertOwnerRef (controllerRefOf gvk (Meta owner))
              (OwnerReferences m) /\
    match GetControllerOf (OwnerReferences m) with
    | Some ex => referSameObject ex (controllerRefOf gvk (Meta owner)) = true
    | None => True
    end.
Proof.
  unfold SetControllerReference, GVKForObject.
  destruct (validateOwner (Meta owner) m); [done |].
  destruct (scheme (GoType owner)) as [gvk |]; [| done].
  fold (controllerRefOf gvk (Meta owner)).
  destruct (GetControllerOf (OwnerReferences m)) as [ex |].
  - destruct (referSameObject ex _) eqn:E; simpl; [| done].
    intros [= <-]. split; [done |]. by exists gvk.
  - intros [= <-]. split; [done |]. by exists gvk.
Qed.

Lemma MergeStringMaps_twice a b :
  util.MergeStringMaps (util.MergeStringMaps a b) b = util.MergeStringMaps a b.
Proof.
  unfold util.MergeStringMaps. by rewrite (assoc_L (∪)), (idemp_L (∪)).
Qed.

(** X21. The closure of [CreateOrPatch] is idempotent: run again on the
    object it produced, for an owner registered under a group and a
    version without a slash, it succeeds and changes nothing. *)
Theorem mutateFn_idempotent
    (r : ClusterRole) (h : Helper) (live live1 : k8s.ClusterRole)
    (gvk : GroupVersionKind) :
  GetScheme h (GoType (GetBeforeObject h)) = Some gvk ->
  count_slash (gvk_Group gvk) = 0 ->
  count_slash (gvk_Version gvk) = 0 ->
  mutateFn r h live = (live1, None) ->
  mutateFn r h live1 = (live1, None).
Proof.
  intros Hs Hg Hv. unfold mutateFn.
  destruct (SetControllerReference _ _ _) as [refs1 | e] eqn:Hset; [| done].
  intros [= <-].
  apply SetControllerReference_inv in Hset as (Hval & gvk' & Hs' & -> & Hex).
  rewrite Hs in Hs'. injection Hs' as <-.
  set (ref := controllerRefOf gvk (Meta (GetBeforeObject h))) in *.
  assert (Hrefl : referSameObject ref ref = true).
  { eapply referSameObject_refl. simpl.
    apply (ParseGroupVersion_String (mkGV (gvk_Group gvk) (gvk_Version gvk)));
      done. }
  destruct live as [[n ns u lb an refs] rules]. simpl in *.
  unfold set_Annotations, set_Labels, set_OwnerReferences in *. simpl in *.
  rewrite MergeStringMaps_twice.
  unfold SetControllerReference, GVKForObject. simpl.
  unfold validateOwner in *. simpl in *. rewrite Hval, Hs.
  fold (controllerRefOf gvk (Meta (GetBeforeObject h))). fold ref.
  rewrite (GetControllerOf_upsert refs ref eq_refl Hrefl Hex).
  rewrite Hrefl. simpl. by rewrite upsertOwnerRef_idempotent.
Qed.

(** X22. When the live ClusterRole is already what the closure makes of
    it, [CreateOrPatch] only reads: its one call is the get, and it
    returns the zero result and no error. *)
Theorem CreateOrPatch_settled
    (r : ClusterRole) (h : Helper) (live : k8s.ClusterRole) :
  let key := ObjectKeyFromObject (ObjectMeta_ (clusterrole r)) in
  GetClusterRole (GetClient h) key = inl live ->
  ObjectKeyFromObject (ObjectMeta_ live) = key ->
  mutateFn r h live = (live, None) ->
  CreateOrPatch r h = ((mkResult false 0, None), [CallGetClusterRole key]).
Proof.
  intros key Hget Hkey Hfix.
  unfold CreateOrPatch, k8s.CreateOrPatch.
  change (ObjectKeyFromObject (ObjectMeta_ (newObject r))) with key.
  unfold mbind, Traced_bind, call. rewrite Hget.
  unfold mutate. rewrite Hfix, Hkey.
  rewrite bool_decide_eq_false_2 by (by intros H).
  rewrite bool_decide_eq_false_2 by (by intros H).
  reflexivity.
Qed.

(** X18 at a patch the client refuses: the error comes with the zero
    result. *)
Lemma CreateOrPatch_result_shape_witness :
  (result (CreateOrPatch (NewClusterRole desiredRole 5000000000)
             (roleHelper (roleClient (inl liveRole) (inl liveRole)
                            (inr forbidden) None)))).1
  = mkResult false 0.
Proof.
  pose proof (CreateOrPatch_result_shape
                (NewClusterRole desiredRole 5000000000)
                (roleHelper (roleClient (inl liveRole) (inl liveRole)
                               (inr forbidden) None))) as H.
  cbv zeta in H. destruct H as (_ & _ & H & _).
  apply H. vm_compute. discriminate.
Defined.

(** X19 at a delete the client refuses: the returned error still carries
    the status of the client's error. *)
Lemma Delete_nil_iff_witness :
  exists e,
    DeleteClusterRole
      (GetClient (roleHelper (roleClient (inl liveRole) (inl liveRole)
                                (inl liveRole) (Some forbidden))))
      (clusterrole (NewClusterRole desiredRole 5000000000)) = Some e /\
    IsNotFound e = false /\
    reasonAndCodeForError
      (wrapError "Error deleting clusterrole reader: " forbidden)
    = reasonAndCodeForError e.
Proof.
  pose proof (Delete_nil_iff (NewClusterRole desiredRole 5000000000)
                (roleHelper (roleClient (inl liveRole) (inl liveRole)
                               (inl liveRole) (Some forbidden)))) as H.
  cbv zeta in H. destruct H as (_ & _ & H).
  apply H. vm_compute. reflexivity.
Defined.

(** X21 at the live ClusterRole [reader]: a second run of the closure
    leaves what the first run made. *)
Lemma mutateFn_idempotent_witness :
  mutateFn (NewClusterRole desiredRole 5000000000)
    (roleHelper (roleClient (inl liveRole) (inl liveRole) (inl liveRole) None))
    settledRole
  = (settledRole, None).
Proof.
  apply (mutateFn_idempotent (NewClusterRole desiredRole 5000000000)
           (roleHelper (roleClient (inl liveRole) (inl liveRole)
                          (inl liveRole) None))
           liveRole settledRole
           (mkGVK "keystone.openstack.org" "v1beta1" "KeystoneAPI")
           eq_refl eq_refl eq_refl).
  vm_compute. reflexivity.
Defined.

(** X22 at a client that holds the settled ClusterRole: one get, no
    write, nothing to requeue. *)
Lemma CreateOrPatch_settled_witness :
  CreateOrPatch (NewClusterRole desiredRole 5000000000)
    (roleHelper (roleClient (inl settledRole) (inr forbidden)
                   (inr forbidden) None))
  = ((mkResult false 0, None),
     [CallGetClusterRole (mkNamespacedName "openstack" "reader")]).
Proof.
  apply (CreateOrPatch_settled (NewClusterRole desiredRole 5000000000)
           (roleHelper (roleClient (inl settledRole) (inr forbidden)
                          (inr forbidden) None))
           settledRole eq_refl eq_refl).
  vm_compute. reflexivity.
Defined.

End clusterrole_more.

